(** * FOAM: spectroscopic and binary-companion constraints on a model grid

    A shallow embedding of [foam/additional_constraints.py]
    ([spectro_constraint], [get_age], [enforce_binary_constraints]).

    Numbers are IEEE binary64 values, the kernel's [float]: [+ - *], [abs]
    and the comparisons are the IEEE ones.  Two operators of the source
    depend on the kind of scalar a row of [df_Theo] hands out, which the
    dtype of the row decides: for a Python float, [/] raises on a zero
    divisor and [round] is the built-in; for a numpy float64, [/] is the
    IEEE quotient and [round] is [np.round].  The development is parametric
    in that kind ([cells]) and in [np.log10], which is libm's.  [int] is
    Python's, [isclose] numpy's, [unique] pandas'.  Exceptions are values of
    [exn], carried by the [result] monad.  A DataFrame is the list of its
    rows in storage order, each row with its index label, an int64.
    [nsigma] is the float the caller's number is promoted to in
    [nsigma*err]. *)

From Stdlib Require Import ZArith List Bool Lia Floats Permutation String.
Import ListNotations.

Set Warnings "-inexact-float".

Local Open Scope Z_scope.

(** ** The Python runtime the module relies on *)

Module Py.

Inductive exn : Set :=
| TypeError | ValueError | OverflowError | ZeroDivisionError
| KeyError | NameError | SystemExit.

Inductive result (A : Type) : Type :=
| OK (a : A)
| Raise (e : exn).
Arguments OK {A} a.
Arguments Raise {A} e.

Definition bind {A B} (c : result A) (k : A -> result B) : result B :=
  match c with
  | OK a => k a
  | Raise e => Raise e
  end.

(** [x > y] on floats. *)
Definition gtb (x y : float) : bool := (y <? x)%float.

(** [x / y] on Python floats. *)
Definition truediv (x y : float) : result float :=
  if (y =? 0)%float then Raise ZeroDivisionError else OK (x / y)%float.

(** Nearest integer to [n / d], ties to even ([0 <= n], [0 < d]). *)
Definition round_half_even (n d : Z) : Z :=
  let q := n / d in
  match 2 * (n mod d) ?= d with
  | Lt => q
  | Gt => q + 1
  | Eq => if Z.even q then q else q + 1
  end.

(** The binary64 value nearest to [(-1)^s * n / d]: the correctly rounded
    quotient of the two integers. *)
Definition nearest_float (s : bool) (n d : positive) : float :=
  SF2Prim (SFdiv prec emax (S754_finite s n 0) (S754_finite false d 0)).

(** [round(x, ndigits)] for a float [x] and [0 <= ndigits]: the exact value
    of [x] is rounded to [ndigits] decimals, ties to even, and the decimal
    obtained is read back as a float; zeros, infinities and NaN are
    returned unchanged. *)
Definition round (x : float) (ndigits : Z) : float :=
  match Prim2SF x with
  | S754_finite s m e =>
      let p := 10 ^ ndigits in
      let n := if 0 <=? e then Z.pos m * 2 ^ e * p
               else round_half_even (Z.pos m * p) (2 ^ (- e)) in
      match n with
      | Z.pos k => nearest_float s k (Z.to_pos p)
      | _ => if s then neg_zero else zero
      end
  | _ => x
  end.

(** [int(x)] for a float: truncation toward zero. *)
Definition int (x : float) : result Z :=
  match Prim2SF x with
  | S754_zero _ => OK 0
  | S754_finite s m e =>
      let a := if 0 <=? e then Z.pos m * 2 ^ e else Z.pos m / 2 ^ (- e) in
      OK (if s then - a else a)
  | S754_infinity _ => Raise OverflowError
  | S754_nan => Raise ValueError
  end.

(** The float an integer is promoted to when it meets a float64 column in
    a comparison. *)
Definition float_of_int (n : Z) : float :=
  SF2Prim (binary_normalize prec emax n 0 false).

(** [max(xs)] and [min(xs)]: the first extremal item, by [>] and [<]. *)
Definition max (xs : list float) : result float :=
  match xs with
  | [] => Raise ValueError
  | x :: rest => OK (fold_left (fun m y => if gtb y m then y else m) rest x)
  end.

Definition min (xs : list float) : result float :=
  match xs with
  | [] => Raise ValueError
  | x :: rest => OK (fold_left (fun m y => if (y <? m)%float then y else m) rest x)
  end.

End Py.

Import Py.

Declare Scope py_scope.
Notation "x <- c ;; k" := (Py.bind c (fun x => k))
  (at level 61, c at next level, right associativity) : py_scope.
Notation "' pat <- c ;; k" := (Py.bind c (fun x => match x with pat => k end))
  (at level 61, pat pattern, c at next level, right associativity) : py_scope.
Local Open Scope py_scope.

(** ** numpy and pandas *)

Module Np.

(** [np.isclose(a, b)] with the default [rtol=1e-05], [atol=1e-08]. *)
Definition isclose (a b : float) : bool :=
  if is_finite a && is_finite b
  then (abs (a - b) <=? 1e-08 + 1e-05 * abs b)%float
  else (a =? b)%float.

(** [np.rint(x)]: the nearest integer, ties to even, as a float. *)
Definition rint (x : float) : float :=
  match Prim2SF x with
  | S754_finite s m e =>
      if 0 <=? e then x
      else
        match Py.round_half_even (Z.pos m) (2 ^ (- e)) with
        | Z.pos k => Py.nearest_float s k 1
        | _ => if s then neg_zero else zero
        end
  | _ => x
  end.

(** [np.round(x, decimals)] for [0 < decimals <= 22]: scale by the power of
    ten, round to the nearest integer, scale back. *)
Definition round (x : float) (decimals : Z) : float :=
  let f := Py.float_of_int (10 ^ decimals) in
  (rint (x * f) / f)%float.

End Np.

Module Pd.

(** Two floats are the same key of a hash table. *)
Definition same_key (x y : float) : bool :=
  (x =? y)%float || (is_nan x && is_nan y).

Fixpoint unique_from (seen xs : list float) : list float :=
  match xs with
  | [] => []
  | x :: rest =>
      if existsb (same_key x) seen then unique_from seen rest
      else x :: unique_from (x :: seen) rest
  end.

(** [pd.unique(xs)]: the distinct values in order of first appearance. *)
Definition unique (xs : list float) : list float := unique_from [] xs.

(** [int(s)] for a Series [s]: defined on a Series of length one only. *)
Definition to_int (s : list float) : result Z :=
  match s with
  | [x] => Py.int x
  | _ => Raise TypeError
  end.

End Pd.

(** ** The two kinds of scalar *)

Inductive scalar : Set :=
| PyFloat     (* a Python float: the cell of a row of dtype object *)
| NpFloat64.  (* a numpy float64: the cell of a row of dtype float64 *)

(** [x / y], [x] a cell. *)
Definition cell_div (k : scalar) (x y : float) : result float :=
  match k with
  | PyFloat => Py.truediv x y
  | NpFloat64 => OK (x / y)%float
  end.

(** [round(x, ndigits)], [x] a cell. *)
Definition cell_round (k : scalar) (x : float) (ndigits : Z) : float :=
  match k with
  | PyFloat => Py.round x ndigits
  | NpFloat64 => Np.round x ndigits
  end.

(** ** Tables *)

(** The observation table: columns [X] and [X_err]. *)
Module Obs.
Record row : Set := {
  Teff : float; Teff_err : float;
  logg : float; logg_err : float;
  logL : float; logL_err : float }.
End Obs.

(** The grid of theoretical models with their merit values ([df_Theo]).
    [name] is the index label of the row, [Zini] the column [Z]. *)
Module Theo.
Record row : Set := {
  name : Z;
  Zini : float; M : float; logD : float; aov : float; fov : float;
  Xc : float;
  logTeff : float; logg : float; logL : float;
  meritValue : float }.
End Theo.

(** The grid with spectroscopy and ages ([spectroGrid_dataFrame]). *)
Module Grid.
Record row : Set := {
  Zini : float; M : float; logD : float; aov : float; fov : float;
  Xc : float;
  age : float }.
End Grid.

(** The isochrone-cloud summary: a dict from metallicity to a dict from
    companion mass to the rows of that track, in insertion order. *)
Module Iso.
Record row : Set := {
  star_age : float; log_Teff : float; log_g : float; log_L : float }.
Definition track : Set := list row.
Definition cloud : Set := list (float * track).
Definition summary : Set := list (float * cloud).

(** [d[key]] *)
Fixpoint get (d : summary) (key : float) : result cloud :=
  match d with
  | [] => Raise KeyError
  | (k, v) :: rest => if (k =? key)%float then OK v else get rest key
  end.
End Iso.

(** The dict [spectro_companion]. *)
Module Companion.
Record spec : Set := {
  q : float; q_err : float;
  primary_pulsates : bool;
  Teff : option float; Teff_err : float;
  logg : option float; logg_err : float;
  logL : option float; logL_err : float }.
End Companion.

(** ** The process state: the log and the files written *)

(** A stored entry [(nsigma, merit_values_file, node)] is the file named
    [{nsigma}sigmaSpectro_{merit_values_file}], written anew; [node] is the
    table it holds under the key [spectro_constrained_models], or [None]
    when it holds no node. *)
Record world : Type := {
  logged : list string;
  stored : list (float * string * option (list Theo.row)) }.

Definition io (A : Type) : Type := world -> result A * world.

Definition io_ret {A} (a : A) : io A := fun w => (OK a, w).

Definition io_bind {A B} (c : io A) (k : A -> io B) : io B :=
  fun w =>
    match c w with
    | (OK a, w') => k a w'
    | (Raise e, w') => (Raise e, w')
    end.

Definition lift {A} (r : result A) : io A := fun w => (r, w).

Notation "x <~ c ;; k" := (io_bind c (fun x => k))
  (at level 61, c at next level, right associativity) : py_scope.

(** The names bound at the top level of [additional_constraints.py]: its
    imports and its three functions. *)
Definition module_globals : list string :=
  ["sys"; "partial"; "np"; "pd"; "Path";
   "spectro_constraint"; "get_age"; "enforce_binary_constraints"]%string.

Definition global_bound (x : string) : bool :=
  existsb (String.eqb x) module_globals.

(** [logger.error(msg)]: the name [logger] is looked up first. *)
Definition logger_error (msg : string) : io unit :=
  fun w =>
    if global_bound "logger"
    then (OK tt, {| logged := logged w ++ [msg]; stored := stored w |})
    else (Raise NameError, w).

(** [sys.exit()] *)
Definition sys_exit : io unit := fun w => (Raise SystemExit, w).

(** What [to_hdf] with [format='table'] puts under the key: pandas stores
    no node for a frame without rows. *)
Definition node (df : list Theo.row) : option (list Theo.row) :=
  match df with
  | [] => None
  | _ :: _ => Some df
  end.

(** [df.to_hdf(outputFile, 'spectro_constrained_models', format='table', mode='w')] *)
Definition to_hdf (nsigma : float) (merit_values_file : string)
    (df : list Theo.row) : io unit :=
  fun w =>
    (OK tt, {| logged := logged w;
               stored := (nsigma, merit_values_file, node df) :: stored w |}).

(** [func] on every row, in order. *)
Fixpoint each_row {A B} (func : A -> result B) (df : list A) : result (list B) :=
  match df with
  | [] => OK []
  | r :: rest =>
      y <- func r ;;
      ys <- each_row func rest ;;
      OK (y :: ys)
  end.

(** A value of the Series [indices_to_drop]. *)
Inductive label : Set :=
| LNone                (* None, in a Series of dtype object *)
| LInt (i : Z)         (* an integer *)
| LFloat (f : float).  (* a float64 *)

Definition is_some {A} (o : option A) : bool :=
  match o with Some _ => true | None => false end.

(** A result of [func] in a Series of integers or of objects, and in a
    Series of dtype float64, where None has become NaN and a label the
    float64 nearest to it. *)
Definition exact_label (o : option Z) : label :=
  match o with
  | Some i => LInt i
  | None => LNone
  end.

Definition float_label (o : option Z) : label :=
  match o with
  | Some i => LFloat (Py.float_of_int i)
  | None => LFloat nan
  end.

(** The Series pandas builds from the results of [func], each None or an
    index label (an int64).  Labels alone give a Series of integers and
    None alone a Series of objects; None beside a label gives a Series of
    dtype float64. *)
Definition series (results : list (option Z)) : list label :=
  if forallb is_some results || forallb (fun o => negb (is_some o)) results
  then map exact_label results
  else map float_label results.

(** [df.apply(func, axis=1)].  On a frame without rows pandas does not go
    through the rows; what the caller then iterates over is [on_empty]. *)
Definition apply {A} (on_empty : result (list label))
    (func : A -> result (option Z)) (df : list A) : result (list label) :=
  match df with
  | [] => on_empty
  | _ :: _ =>
      results <- each_row func df ;;
      OK (series results)
  end.

(** The rows a label designates: an integer the rows that carry it, a
    float64 the rows whose label, cast to float64, equals it. *)
Definition hit (l : label) (r : Theo.row) : bool :=
  match l with
  | LNone => false
  | LInt i => Theo.name r =? i
  | LFloat f => (Py.float_of_int (Theo.name r) =? f)%float
  end.

(** No label occurs twice. *)
Fixpoint is_unique (labels : list Z) : bool :=
  match labels with
  | [] => true
  | x :: rest => negb (existsb (Z.eqb x) rest) && is_unique rest
  end.

Fixpoint remove_at {A} (n : nat) (l : list A) {struct l} : list A :=
  match l, n with
  | [], _ => []
  | _ :: rest, O => rest
  | x :: rest, S n' => x :: remove_at n' rest
  end.

(** [df.drop(label, inplace=True)].  A label that designates no row is an
    error.  On an index with a repeated label every designated row goes.
    On an index without one the row at the position the index finds for
    the label goes; when a float64 designates several rows, that position
    is the one the hash table of the index gives, [locate]. *)
Definition drop (locate : label -> list Z -> nat) (l : label)
    (df : list Theo.row) : result (list Theo.row) :=
  match filter (hit l) df with
  | [] => Raise KeyError
  | [_] => OK (filter (fun r => negb (hit l r)) df)
  | _ :: _ :: _ =>
      if is_unique (map Theo.name df)
      then OK (remove_at (locate l (map Theo.name df)) df)
      else OK (filter (fun r => negb (hit l r)) df)
  end.

(** Line 47: [(index_to_drop is not None) and (index_to_drop==index_to_drop)]. *)
Definition to_drop (index_to_drop : label) : bool :=
  match index_to_drop with
  | LNone => false
  | LInt _ => true
  | LFloat f => (f =? f)%float
  end.

(** Lines 46-48. *)
Fixpoint drop_each (locate : label -> list Z -> nat)
    (indices_to_drop : list label) (df : list Theo.row)
  : result (list Theo.row) :=
  match indices_to_drop with
  | [] => OK df
  | index_to_drop :: rest =>
      if to_drop index_to_drop
      then
        df' <- drop locate index_to_drop df ;;
        drop_each locate rest df'
      else drop_each locate rest df
  end.

(** ** The three functions of [additional_constraints.py] *)

Section Constraints.

(** [np.log10] *)
Variable log10 : float -> float.

(** The kind of scalar in the rows of [df_Theo]. *)
Variable cells : scalar.

(** What the loop of lines 46-48 receives from [apply] when no row is left
    by the cut. *)
Variable apply_on_empty : result (list label).

(** The position the index gives for a float64 label that designates
    several rows of a frame whose labels all differ. *)
Variable locate : label -> list Z -> nat.

(** Lines 30-35: the cut on the primary's observables, at the first row of
    the observation table. *)
Definition spectro_box (obs : Obs.row) (nsigma : float)
    (df_Theo : list Theo.row) : list Theo.row :=
  let df_Theo := filter (fun r =>
    (Theo.logTeff r <? log10 (Obs.Teff obs + nsigma * Obs.Teff_err obs))%float) df_Theo in
  let df_Theo := filter (fun r =>
    gtb (Theo.logTeff r) (log10 (Obs.Teff obs - nsigma * Obs.Teff_err obs))) df_Theo in
  let df_Theo := filter (fun r =>
    (Theo.logg r <? Obs.logg obs + nsigma * Obs.logg_err obs)%float) df_Theo in
  let df_Theo := filter (fun r =>
    gtb (Theo.logg r) (Obs.logg obs - nsigma * Obs.logg_err obs)) df_Theo in
  let df_Theo := filter (fun r =>
    (Theo.logL r <? Obs.logL obs + nsigma * Obs.logL_err obs)%float) df_Theo in
  filter (fun r =>
    gtb (Theo.logL r) (Obs.logL obs - nsigma * Obs.logL_err obs)) df_Theo.

(** The mask of the lookups of [get_age]: the rows of the model's track
    ([Z], [M], [logD], [aov], [fov]) at central hydrogen fraction [xc]. *)
Definition on_track (model : Theo.row) (r : Grid.row) : bool :=
  Np.isclose (Grid.Zini r) (Theo.Zini model)
  && Np.isclose (Grid.M r) (Theo.M model)
  && Np.isclose (Grid.logD r) (Theo.logD model)
  && Np.isclose (Grid.aov r) (Theo.aov model)
  && Np.isclose (Grid.fov r) (Theo.fov model).

Definition matching (model : Theo.row) (xc : float) (df : list Grid.row)
  : list Grid.row :=
  filter (fun r => on_track model r && Np.isclose (Grid.Xc r) xc) df.

(** [int(df.loc[mask].age)] *)
Definition age_at (df : list Grid.row) (model : Theo.row) (xc : float)
  : result Z :=
  Pd.to_int (map Grid.age (matching model xc df)).

(** [abs(x - y) < 1E-4] *)
Definition near (x y : float) : bool := (abs (x - y) <? 1E-4)%float.

Definition get_age (model : Theo.row) (df : list Grid.row) : result (Z * Z) :=
  let unique_xc :=
    Pd.unique (map Grid.Xc
      (filter (fun r => Np.isclose (Grid.Zini r) (Theo.Zini model)) df)) in
  xc_max <- Py.max unique_xc ;;
  if near (Theo.Xc model) xc_max then
    let min_age := 0 in
    max_age <- age_at df model (cell_round cells (Theo.Xc model - 0.01) 2) ;;
    OK (min_age, max_age)
  else
    xc_min <- Py.min unique_xc ;;
    if near (Theo.Xc model) xc_min then
      min_age <- age_at df model (cell_round cells (Theo.Xc model + 0.01) 2) ;;
      age <- age_at df model (cell_round cells (Theo.Xc model) 2) ;;
      let max_age := age + age - min_age in
      OK (min_age, max_age)
    else
      min_age <- age_at df model (cell_round cells (Theo.Xc model + 0.01) 2) ;;
      max_age <- age_at df model (cell_round cells (Theo.Xc model - 0.01) 2) ;;
      OK (min_age, max_age).

(** Lines 108-115: [(M2_min, M2_max)]. *)
Definition mass_range (model : Theo.row) (spectro_companion : Companion.spec)
  : result (float * float) :=
  let q := Companion.q spectro_companion in
  let q_err := Companion.q_err spectro_companion in
  if Companion.primary_pulsates spectro_companion then
    let M2_min := cell_round cells (Theo.M model * (q - q_err)) 1 in
    let M2_max := cell_round cells (Theo.M model * (q + q_err)) 1 in
    OK (M2_min, M2_max)
  else
    lo <- cell_div cells (Theo.M model) (q + q_err) ;;
    let M2_min := cell_round cells lo 1 in
    hi <- cell_div cells (Theo.M model) (q - q_err) ;;
    let M2_max := cell_round cells hi 1 in
    OK (M2_min, M2_max).

(** Line 123: the rows of a companion track inside the age window. *)
Definition in_age_window (min_age max_age : Z) (df : Iso.track) : Iso.track :=
  filter (fun r =>
    (Iso.star_age r <? Py.float_of_int max_age)%float
    && gtb (Iso.star_age r) (Py.float_of_int min_age)) df.

(** Lines 129-137: the cut on the companion's observables; an observable
    that is [None] cuts nothing. *)
Definition companion_box (spectro_companion : Companion.spec)
    (nsigma : float) (df : Iso.track) : Iso.track :=
  let df :=
    match Companion.Teff spectro_companion with
    | Some teff =>
        let err := Companion.Teff_err spectro_companion in
        let df := filter (fun r =>
          (Iso.log_Teff r <? log10 (teff + nsigma * err))%float) df in
        filter (fun r => gtb (Iso.log_Teff r) (log10 (teff - nsigma * err))) df
    | None => df
    end in
  let df :=
    match Companion.logg spectro_companion with
    | Some logg =>
        let err := Companion.logg_err spectro_companion in
        let df := filter (fun r => (Iso.log_g r <? logg + nsigma * err)%float) df in
        filter (fun r => gtb (Iso.log_g r) (logg - nsigma * err)) df
    | None => df
    end in
  match Companion.logL spectro_companion with
  | Some logL =>
      let err := Companion.logL_err spectro_companion in
      let df := filter (fun r => (Iso.log_L r <? logL + nsigma * err)%float) df in
      filter (fun r => gtb (Iso.log_L r) (logL - nsigma * err)) df
  | None => df
  end.

(** Lines 119-139: the loop over the mass tracks.  The first component of
    the result counts the tracks the loop has taken from the dict, the
    second tells whether it left through [return None]. *)
Fixpoint scan_tracks (spectro_companion : Companion.spec) (nsigma : float)
    (min_age max_age : Z) (M2_min M2_max : float) (items : Iso.cloud)
  : nat * bool :=
  match items with
  | [] => (0%nat, false)
  | (key_Mass, df) :: rest =>
      let continue :=
        let (n, found) :=
          scan_tracks spectro_companion nsigma min_age max_age M2_min M2_max rest in
        (S n, found) in
      if (key_Mass <? M2_min)%float || gtb key_Mass M2_max then continue
      else
        let df := in_age_window min_age max_age df in
        if (List.length df =? 0)%nat then continue
        else
          let df := companion_box spectro_companion nsigma df in
          if (0 <? List.length df)%nat then (1%nat, true) else continue
  end.

(** The index label to drop, or [None] when the model stays. *)
Definition enforce_binary_constraints (df_Theo_row : Theo.row)
    (spectro_companion : Companion.spec) (isocloud_grid_summary : Iso.summary)
    (nsigma : float) (spectroGrid_dataFrame : list Grid.row)
  : result (option Z) :=
  let model := df_Theo_row in
  '(min_age, max_age) <- get_age model spectroGrid_dataFrame ;;
  '(M2_min, M2_max) <- mass_range model spectro_companion ;;
  isocloud_dict <- Iso.get isocloud_grid_summary (Theo.Zini model) ;;
  if snd (scan_tracks spectro_companion nsigma min_age max_age M2_min M2_max
            isocloud_dict)
  then OK None
  else OK (Some (Theo.name model)).

(** The tables are passed as read: [Obs_dFrame] from [observations_file],
    [df_Theo] from [merit_values_file], and the grid with ages from
    [spectroGrid_file] when that path is given. *)
Definition spectro_constraint (merit_values_file : string)
    (Obs_dFrame : list Obs.row) (df_Theo : list Theo.row) (nsigma : float)
    (spectro_companion : option Companion.spec)
    (isocloud_grid_summary : option Iso.summary)
    (spectroGrid_file : option (list Grid.row)) : io unit :=
  obs <~ lift (match Obs_dFrame with
               | [] => Raise KeyError
               | obs :: _ => OK obs
               end) ;;
  let df_Theo := spectro_box obs nsigma df_Theo in
  df_Theo <~
    match spectro_companion with
    | None => io_ret df_Theo
    | Some companion =>
        match isocloud_grid_summary, spectroGrid_file with
        | Some summary, Some spectroGrid_dataFrame =>
            let func := fun r =>
              enforce_binary_constraints r companion summary nsigma
                spectroGrid_dataFrame in
            indices_to_drop <~ lift (apply apply_on_empty func df_Theo) ;;
            lift (drop_each locate indices_to_drop df_Theo)
        | _, _ =>
            _ <~ logger_error "Please supply a directory for the isocloud grid and a path to the file with the grid spectroscopy and ages." ;;
            _ <~ sys_exit ;;
            io_ret df_Theo
        end
    end ;;
  to_hdf nsigma merit_values_file df_Theo.

End Constraints.

(** ** The top-level script [foam/pipeline/pipeline.py]

    The script reads the module [config], checks it, and imports the stage
    modules one after the other; importing a stage runs it.  The stages and
    [config] are not part of these sources: a stage is any function on the
    state of the process, and [config] is the record of the attributes the
    script uses. *)

Module Pipeline.

(** [x in s], for two strings: [x] occurs in [s]. *)
Fixpoint contains (x s : string) : bool :=
  String.prefix x s
  || match s with
     | EmptyString => false
     | String _ s' => contains x s'
     end.

(** The attributes of [config] the script reads or sets.  A dict is the
    list of its items in insertion order; [main_directory] is [None] until
    it is set. *)
Record config : Type := {
  observable_list : list (list string);
  periods_or_frequencies_observed : string;
  fixed_parameters : option (list (string * float));
  free_parameters : list string;
  observations : string;
  main_directory : option string }.

(** What [config.logger.error] is called with: the values the message is
    formatted from. *)
Inductive message : Type :=
| ObservablesMismatch (observable_list : list (list string)) (used : string)
| FixedAndFree (param : string).

(** The process: [config], the working directory, the directories made and
    the errors logged. *)
Record state : Type := {
  cfg : config;
  cwd : string;
  made : list string;
  errors : list message }.

Definition run (A : Type) : Type := state -> result A * state.

Definition ret {A} (a : A) : run A := fun s => (OK a, s).

Definition bind {A B} (c : run A) (k : A -> run B) : run B :=
  fun s =>
    match c s with
    | (OK a, s') => k a s'
    | (Raise e, s') => (Raise e, s')
    end.

Definition get : run state := fun s => (OK s, s).

Definition raise {A} (e : exn) : run A := fun s => (Raise e, s).

(** [config.logger.error(...)] *)
Definition logger_error (m : message) : run unit :=
  fun s =>
    (OK tt, {| cfg := cfg s; cwd := cwd s; made := made s;
               errors := errors s ++ [m] |}).

(** [sys.exit()] *)
Definition sys_exit {A} : run A := raise SystemExit.

(** Lines 26-27. *)
Definition set_directories : run unit :=
  fun s =>
    let c := cfg s in
    (OK tt,
     {| cfg := {| observable_list := observable_list c;
                  periods_or_frequencies_observed :=
                    periods_or_frequencies_observed c;
                  fixed_parameters := fixed_parameters c;
                  free_parameters := free_parameters c;
                  observations := cwd s ++ "/" ++ observations c;
                  main_directory := Some (cwd s) |};
        cwd := cwd s; made := made s; errors := errors s |}).

(** Lines 35-36: make the directory and enter it. *)
Definition enter (dir : string) : run unit :=
  fun s =>
    let path := (cwd s ++ "/" ++ dir)%string in
    (OK tt, {| cfg := cfg s; cwd := path; made := path :: made s;
               errors := errors s |}).

End Pipeline.

Notation "x <~~ c ;; k" := (Pipeline.bind c (fun x => k))
  (at level 61, c at next level, right associativity) : py_scope.

Section Script.

(** [importlib.import_module(name)]: the stage [name] is run. *)
Variable import_module : string -> Pipeline.run unit.

(** Lines 9-11: the flag after the inner loop. *)
Definition match_obsAndTheory (used : string) (obs_list : list string) : bool :=
  fold_left (fun flag obs => if Pipeline.contains used obs then true else flag)
    obs_list false.

(** Lines 8-15. *)
Fixpoint check_observables (c : Pipeline.config)
    (lists : list (list string)) : Pipeline.run unit :=
  match lists with
  | [] => Pipeline.ret tt
  | obs_list :: rest =>
      if match_obsAndTheory (Pipeline.periods_or_frequencies_observed c) obs_list
      then check_observables c rest
      else
        _ <~~ Pipeline.logger_error
                (Pipeline.ObservablesMismatch (Pipeline.observable_list c)
                   (Pipeline.periods_or_frequencies_observed c)) ;;
        Pipeline.sys_exit
  end.

(** Lines 19-23: the name of the nested grid, or the exit at a fixed
    parameter that is free as well. *)
Fixpoint check_fixed (free_parameters : list string) (keys : list string)
    (nested_grid_dir : string) : Pipeline.run string :=
  match keys with
  | [] => Pipeline.ret nested_grid_dir
  | param :: rest =>
      let nested_grid_dir := (nested_grid_dir ++ "_" ++ param)%string in
      if existsb (String.eqb param) free_parameters
      then
        _ <~~ Pipeline.logger_error (Pipeline.FixedAndFree param) ;;
        Pipeline.sys_exit
      else check_fixed free_parameters rest nested_grid_dir
  end.

(** Lines 26-42: the directories and the stages.  [nested_grid_dir] is
    bound only when line 17 found fixed parameters. *)
Definition stages (nested_grid_dir : option string) : Pipeline.run unit :=
  _ <~~ Pipeline.set_directories ;;
  _ <~~ import_module "foam.pipeline.pipe0_extract_puls_and_spectro" ;;
  _ <~~ import_module "foam.pipeline.pipe1_construct_pattern" ;;
  s <~~ Pipeline.get ;;
  _ <~~ match Pipeline.fixed_parameters (Pipeline.cfg s) with
        | None => Pipeline.ret tt
        | Some _ =>
            match nested_grid_dir with
            | Some dir => Pipeline.enter dir
            | None => Pipeline.raise NameError
            end
        end ;;
  _ <~~ import_module "foam.pipeline.pipe2_calculate_likelihood" ;;
  _ <~~ import_module "foam.pipeline.pipe3_spectroClip_AICc" ;;
  _ <~~ import_module "foam.pipeline.pipe4_bestModel_errors" ;;
  _ <~~ import_module "foam.pipeline.pipe5_correlationPlots" ;;
  import_module "foam.pipeline.pipe6_table_bestModels".

(** The script. *)
Definition pipeline : Pipeline.run unit :=
  s <~~ Pipeline.get ;;
  let config := Pipeline.cfg s in
  _ <~~ check_observables config (Pipeline.observable_list config) ;;
  nested_grid_dir <~~
    match Pipeline.fixed_parameters config with
    | None => Pipeline.ret None
    | Some fixed =>
        dir <~~ check_fixed (Pipeline.free_parameters config) (map fst fixed)
                  "Nested_grid_fix" ;;
        Pipeline.ret (Some dir)
    end ;;
  stages nested_grid_dir.

End Script.

(** ** A concrete [log10], to run the definitions on tables

    The value is computed in binary64 from [x = m * 2^e] as
    [(ln m + e * ln 2) / ln 10], with [ln m] by the series of
    [2 * atanh ((m - 1) / (m + 1))].  It follows [np.log10] on the special
    values (NaN for a negative argument, minus infinity at zero). *)

Fixpoint atanh_series (n : nat) (t t2 k : float) : float :=
  match n with
  | O => 0%float
  | S n' => (t / k + atanh_series n' (t * t2) t2 (k + 2))%float
  end.

Definition ln_series (m : float) : float :=
  let t := ((m - 1) / (m + 1))%float in
  (2 * atanh_series 24 t (t * t) 1)%float.

Definition log10_series (x : float) : float :=
  if is_nan x || (x <? 0)%float then nan
  else if (x =? 0)%float then neg_infinity
  else if (x =? infinity)%float then infinity
  else
    let (m, e) := FloatOps.Z.frexp x in
    ((ln_series m + Py.float_of_int e * 0.6931471805599453) / 2.302585092994046)%float.

(** ** Notions used to state the properties *)

(** [sublist l1 l2]: [l1] is [l2] with some rows removed, the others in
    place. *)
Inductive sublist {A : Type} : list A -> list A -> Prop :=
| sublist_nil : sublist [] []
| sublist_skip x l1 l2 : sublist l1 l2 -> sublist l1 (x :: l2)
| sublist_keep x l1 l2 : sublist l1 l2 -> sublist (x :: l1) (x :: l2).

(** The six strict comparisons of the primary cut, as one predicate. *)
Definition in_box (log10 : float -> float) (obs : Obs.row) (nsigma : float)
    (r : Theo.row) : bool :=
  (Theo.logTeff r <? log10 (Obs.Teff obs + nsigma * Obs.Teff_err obs))%float
  && gtb (Theo.logTeff r)
       (log10 (Obs.Teff obs - nsigma * Obs.Teff_err obs)%float)
  && (Theo.logg r <? Obs.logg obs + nsigma * Obs.logg_err obs)%float
  && gtb (Theo.logg r) (Obs.logg obs - nsigma * Obs.logg_err obs)
  && (Theo.logL r <? Obs.logL obs + nsigma * Obs.logL_err obs)%float
  && gtb (Theo.logL r) (Obs.logL obs - nsigma * Obs.logL_err obs).

(** A mass track is compatible with the model: its key is not outside
    [[M2_min, M2_max]] and some row of it is left by the age window and the
    companion's box. *)
Definition compatible (log10 : float -> float) (spectro_companion : Companion.spec)
    (nsigma : float) (min_age max_age : Z) (M2_min M2_max : float)
    (item : float * Iso.track) : bool :=
  negb ((fst item <? M2_min)%float || gtb (fst item) M2_max)
  && negb (List.length
             (companion_box log10 spectro_companion nsigma
                (in_age_window min_age max_age (snd item))) =? 0)%nat.

(** Two summaries that hold, under the same keys in the same order, the same
    mass tracks in possibly different orders. *)
Definition same_tracks (s1 s2 : Iso.summary) : Prop :=
  Forall2 (fun a b => fst a = fst b /\ Permutation (snd a) (snd b)) s1 s2.


(** The distinct [Xc] of the rows at the model's metallicity. *)
Definition track_xc (model : Theo.row) (df : list Grid.row) : list float :=
  Pd.unique (map Grid.Xc
    (filter (fun r => Np.isclose (Grid.Zini r) (Theo.Zini model)) df)).

(** [y] is [x] rounded to [nd] decimals as Python's [round] does it: for a
    finite non-zero [x] of sign s, mantissa m and exponent e, the float
    nearest to k / 10^nd (a zero of sign s when k = 0), where the integer
    k is nearest to m * 2^e * 10^nd, the even one when that lies halfway
    between two; any other [x] as it is. *)
Definition decimal_rounding (nd : Z) (x y : float) : Prop :=
  match Prim2SF x with
  | S754_finite s m e =>
      exists k,
        0 <= k
        /\ (if 0 <=? e then k = Z.pos m * 2 ^ e * 10 ^ nd
            else 2 * Z.abs (Z.pos m * 10 ^ nd - 2 ^ (- e) * k) <= 2 ^ (- e)
                 /\ (2 * ((Z.pos m * 10 ^ nd) mod 2 ^ (- e)) = 2 ^ (- e) ->
                     Z.even k = true))
        /\ y = match k with
               | Z.pos p => Py.nearest_float s p (Z.to_pos (10 ^ nd))
               | _ => if s then neg_zero else zero
               end
  | _ => y = x
  end.

(** [r] is the integer nearest to [t], the even one when [t] lies halfway
    between two, as a float of the sign of [t]. *)
Definition nearest_integer (t r : float) : Prop :=
  match Prim2SF t with
  | S754_finite s m e =>
      if 0 <=? e then r = t
      else
        exists k,
          0 <= k
          /\ 2 * Z.abs (Z.pos m - 2 ^ (- e) * k) <= 2 ^ (- e)
          /\ (2 * (Z.pos m mod 2 ^ (- e)) = 2 ^ (- e) -> Z.even k = true)
          /\ r = match k with
                 | Z.pos p => Py.nearest_float s p 1
                 | _ => if s then neg_zero else zero
                 end
  | _ => r = t
  end.

(** [y] is [x] rounded to [nd] decimals as numpy does it: the integer
    nearest to [x * 10^nd], divided by [10^nd], both in binary64. *)
Definition scaled_rounding (nd : Z) (x y : float) : Prop :=
  exists r,
    nearest_integer (x * Py.float_of_int (10 ^ nd)) r
    /\ y = (r / Py.float_of_int (10 ^ nd))%float.

(** [y] is [x] rounded to [nd] decimals, for a cell of the given kind. *)
Definition rounded (cells : scalar) (nd : Z) (x y : float) : Prop :=
  match cells with
  | PyFloat => decimal_rounding nd x y
  | NpFloat64 => scaled_rounding nd x y
  end.

(** ** Sample tables *)

Module Sample.

(** One observed star: Teff = 6000 +- 50, logg = 4.0 +- 0.1,
    logL = 1.0 +- 0.05. *)
Definition obs : Obs.row :=
  {| Obs.Teff := 6000; Obs.Teff_err := 50;
     Obs.logg := 4.0; Obs.logg_err := 0.1;
     Obs.logL := 1.0; Obs.logL_err := 0.05 |}.

Definition model (i : Z) (xc lteff lg ll : float) : Theo.row :=
  {| Theo.name := i;
     Theo.Zini := 0.014; Theo.M := 5.0; Theo.logD := 1.0;
     Theo.aov := 0.0; Theo.fov := 0.01; Theo.Xc := xc;
     Theo.logTeff := lteff; Theo.logg := lg; Theo.logL := ll;
     Theo.meritValue := 12.5 |}.

(** The models at the three steps of the track, a model that sits on the
    upper logg bound at two sigma, and one that is too hot. *)
Definition young : Theo.row := model 0 0.70 3.778 4.0 1.0.
Definition middle : Theo.row := model 1 0.69 3.775 4.1 1.05.
Definition on_edge : Theo.row := model 2 0.69 3.778 (4.0 + 2 * 0.1) 1.0.
Definition hot : Theo.row := model 3 0.68 3.800 4.0 1.0.
Definition old : Theo.row := model 4 0.68 3.780 3.9 0.95.

Definition df_Theo : list Theo.row := [ young; middle; on_edge; hot; old ].

Definition step (xc a : float) : Grid.row :=
  {| Grid.Zini := 0.014; Grid.M := 5.0; Grid.logD := 1.0;
     Grid.aov := 0.0; Grid.fov := 0.01; Grid.Xc := xc; Grid.age := a |}.

(** One track sampled at Xc = 0.70, 0.69, 0.68. *)
Definition grid : list Grid.row :=
  [ step 0.70 1000.5; step 0.69 2000.7; step 0.68 3500.2 ].

Definition point (a lteff lg ll : float) : Iso.row :=
  {| Iso.star_age := a; Iso.log_Teff := lteff; Iso.log_g := lg;
     Iso.log_L := ll |}.

(** A companion observed at logg = 4.3 +- 0.1 only. *)
Definition companion (pp : bool) (q q_err : float) : Companion.spec :=
  {| Companion.q := q; Companion.q_err := q_err;
     Companion.primary_pulsates := pp;
     Companion.Teff := None; Companion.Teff_err := 0;
     Companion.logg := Some 4.3%float; Companion.logg_err := 0.1;
     Companion.logL := None; Companion.logL_err := 0 |}.

(** The track of 2.2 Msun misses the box; the one of 2.5 Msun crosses it
    early on; the one of 2.9 Msun is too massive for q = 0.5 +- 0.05 and
    lies in the box at ages 1000 and 3500 only. *)
Definition track_a : Iso.track :=
  [ point 1500 4.05 3.2 1.9; point 2500 4.04 3.3 1.95 ].
Definition track_b : Iso.track :=
  [ point 900 4.10 4.35 2.2; point 2000 4.09 4.3 2.25;
    point 4000 4.08 4.0 2.3 ].
Definition track_c : Iso.track :=
  [ point 1000 4.15 4.3 2.4; point 2200 4.15 3.5 2.42;
    point 3500 4.14 4.3 2.45 ].

Definition cloud : Iso.cloud :=
  [ (2.2%float, track_a); (2.5%float, track_b); (2.9%float, track_c) ].

Definition summary : Iso.summary := [ (0.014%float, cloud) ].

(** A cloud whose one track of suitable mass lies in the box only at the
    two ends of the age bracket of the model at Xc = 0.69. *)
Definition summary_edge : Iso.summary :=
  [ (0.014%float, [ (2.5%float, track_c) ]) ].

(** The grid with the step at Xc = 0.68 stored twice, and the grid
    without the step at Xc = 0.69. *)
Definition grid_twice : list Grid.row := step 0.68 3600.0 :: grid.
Definition grid_gap : list Grid.row :=
  [ step 0.70 1000.5; step 0.68 3500.2 ].

Definition w0 : world := {| logged := []; stored := [] |}.

(** An index that gives the first position. *)
Definition first : label -> list Z -> nat := fun _ _ => 0%nat.

End Sample.

(** ** Notions and sample data for the further properties *)

(** [x] occurs in [s]. *)
Definition occurs (x s : string) : Prop :=
  exists pre post, s = (pre ++ x ++ post)%string.

(** The companion search lets the model stay. *)
Definition stays (log10 : float -> float) (cells : scalar)
    (spectro_companion : Companion.spec) (isocloud_grid_summary : Iso.summary)
    (nsigma : float) (spectroGrid_dataFrame : list Grid.row) (r : Theo.row)
  : bool :=
  match enforce_binary_constraints log10 cells r spectro_companion
          isocloud_grid_summary nsigma spectroGrid_dataFrame with
  | OK None => true
  | _ => false
  end.

(** The labels of the rows stay apart when they are cast to float64. *)
Definition cast_apart (rows : list Theo.row) : Prop :=
  forall x y, In x rows -> In y rows ->
    (Py.float_of_int (Theo.name x) =? Py.float_of_int (Theo.name y))%float
      = true ->
    Theo.name x = Theo.name y.

(** The mass test of line 120 lets a key through. *)
Definition mass_in_range (M2_min M2_max key : float) : bool :=
  negb ((key <? M2_min)%float || gtb key M2_max).

Module Demo.

(** Two sets of observables on periods, two fixed parameters. *)
Definition config : Pipeline.config :=
  {| Pipeline.observable_list :=
       [ ["period"; "logL"]; ["period_spacing"; "logTeff"] ]%string;
     Pipeline.periods_or_frequencies_observed := "period";
     Pipeline.fixed_parameters := Some [ ("aov"%string, 0.2%float);
                                         ("fov"%string, 0.01%float) ];
     Pipeline.free_parameters := [ "M"; "Z"; "Xc" ]%string;
     Pipeline.observations := "obs.tsv";
     Pipeline.main_directory := None |}.

(** The same with a set of observables on frequencies only. *)
Definition config_mixed : Pipeline.config :=
  {| Pipeline.observable_list :=
       [ ["period"; "logL"]; ["frequency"; "logTeff"] ]%string;
     Pipeline.periods_or_frequencies_observed := "period";
     Pipeline.fixed_parameters := Some [ ("aov"%string, 0.2%float);
                                         ("fov"%string, 0.01%float) ];
     Pipeline.free_parameters := [ "M"; "Z"; "Xc" ]%string;
     Pipeline.observations := "obs.tsv";
     Pipeline.main_directory := None |}.

(** The same with [fov] free as well as fixed. *)
Definition config_clash : Pipeline.config :=
  {| Pipeline.observable_list :=
       [ ["period"; "logL"]; ["period_spacing"; "logTeff"] ]%string;
     Pipeline.periods_or_frequencies_observed := "period";
     Pipeline.fixed_parameters := Some [ ("aov"%string, 0.2%float);
                                         ("fov"%string, 0.01%float) ];
     Pipeline.free_parameters := [ "M"; "fov"; "Xc" ]%string;
     Pipeline.observations := "obs.tsv";
     Pipeline.main_directory := None |}.

Definition start (c : Pipeline.config) : Pipeline.state :=
  {| Pipeline.cfg := c; Pipeline.cwd := "/work"; Pipeline.made := [];
     Pipeline.errors := [] |}.

(** A stage that leaves a file named after itself in the working
    directory. *)
Definition stage (name : string) : Pipeline.run unit :=
  fun s =>
    (OK tt,
     {| Pipeline.cfg := Pipeline.cfg s; Pipeline.cwd := Pipeline.cwd s;
        Pipeline.made := (Pipeline.cwd s ++ "/" ++ name)%string
                         :: Pipeline.made s;
        Pipeline.errors := Pipeline.errors s |}).

(** A grid whose ages do not grow at the last step, a grid at another
    metallicity, and a model whose logg is NaN. *)
Definition grid_flat : list Grid.row :=
  [ Sample.step 0.70 1000.5; Sample.step 0.69 3500.2; Sample.step 0.68 3500.2 ].

Definition step_z (z xc a : float) : Grid.row :=
  {| Grid.Zini := z; Grid.M := 5.0; Grid.logD := 1.0;
     Grid.aov := 0.0; Grid.fov := 0.01; Grid.Xc := xc; Grid.age := a |}.

Definition grid_two_z : list Grid.row :=
  step_z 0.02 0.71 10 :: Sample.step 0.70 1000.5 :: step_z 0.02 0.67 20
  :: Sample.step 0.69 2000.7 :: Sample.step 0.68 3500.2 :: nil.

Definition no_logg : Theo.row := Sample.model 5 0.69 3.778 nan 1.0.

(** The sample grid with the model at Xc = 0.68 stored a second time under
    the label of the model at Xc = 0.70. *)
Definition df_same_label : list Theo.row :=
  [ Sample.young; Sample.middle; Sample.model 0 0.68 3.780 3.9 0.95 ].

(** The sample grid with the model at Xc = 0.68 stored twice under its own
    label. *)
Definition df_old_twice : list Theo.row :=
  [ Sample.young; Sample.old; Sample.old ].

(** The model at Xc = 0.70 with a metallicity that is close to the one of
    the grid and of the summary, not equal to it. *)
Definition near_z : Theo.row :=
  {| Theo.name := 0;
     Theo.Zini := 0.0140000001; Theo.M := 5.0; Theo.logD := 1.0;
     Theo.aov := 0.0; Theo.fov := 0.01; Theo.Xc := 0.70;
     Theo.logTeff := 3.778; Theo.logg := 4.0; Theo.logL := 1.0;
     Theo.meritValue := 12.5 |}.

(** The sample summary under another metallicity. *)
Definition summary_other : Iso.summary := [ (0.02%float, Sample.cloud) ].

End Demo.

(** ** Facts on floats and lists *)

Section FloatFacts.

Lemma SFcompare_antisym x y :
  SFcompare y x = option_map CompOpp (SFcompare x y).
Proof.
  destruct x as [sx|sx| |sx mx ex], y as [sy|sy| |sy my ey]; simpl;
    try reflexivity;
    try (destruct sx; reflexivity); try (destruct sy; reflexivity);
    try (destruct sx, sy; reflexivity).
  destruct sx, sy; simpl; try reflexivity;
    rewrite (Z.compare_antisym ex ey);
    destruct (ex ?= ey); simpl; try reflexivity;
    f_equal; try rewrite CompOpp_involutive;
    first [ exact (Pos.compare_cont_antisym my mx Eq)
          | exact (eq_sym (Pos.compare_cont_antisym mx my Eq)) ].
Qed.

(** A value equal to a bound is neither below nor above it. *)
Lemma eqb_ltb_false x y : (x =? y)%float = true -> (x <? y)%float = false.
Proof.
  rewrite FloatAxioms.eqb_spec, FloatAxioms.ltb_spec. unfold SFeqb, SFltb.
  destruct (SFcompare (Prim2SF x) (Prim2SF y)) as [[]|]; congruence.
Qed.

Lemma eqb_gtb_false x y : (x =? y)%float = true -> gtb x y = false.
Proof.
  unfold gtb. rewrite FloatAxioms.eqb_spec, FloatAxioms.ltb_spec.
  unfold SFeqb, SFltb.
  rewrite (SFcompare_antisym (Prim2SF x) (Prim2SF y)).
  destruct (SFcompare (Prim2SF x) (Prim2SF y)) as [[]|]; simpl; congruence.
Qed.

(** [x - x] is zero for every finite [x]. *)
Lemma sub_diag_zero x :
  (x =? x)%float = true -> (abs x =? infinity)%float = false ->
  (x - x =? 0)%float = true.
Proof.
  rewrite !FloatAxioms.eqb_spec, abs_spec, sub_spec.
  change (Prim2SF infinity) with (S754_infinity false).
  change (Prim2SF 0) with (S754_zero false).
  destruct (Prim2SF x) as [s|s| |s m e]; simpl; try discriminate.
  - intros _ _. destruct s; reflexivity.
  - intros _ _. unfold SF64sub, SFsub.
    rewrite Z.min_id. unfold shl_align. rewrite Z.sub_diag. simpl fst.
    reflexivity.
Qed.

(** A bound below zero is below every mass that is not. *)
Lemma neg_lt_nonneg hi key :
  (hi <? 0)%float = true -> (0 <=? key)%float = true -> gtb key hi = true.
Proof.
  unfold gtb. rewrite !FloatAxioms.ltb_spec, leb_spec.
  change (Prim2SF 0) with (S754_zero false).
  unfold SFltb, SFleb.
  destruct (Prim2SF hi) as [s|s| |s m e], (Prim2SF key) as [s'|s'| |s' m' e'];
    simpl; try discriminate; try reflexivity;
    try (destruct s; discriminate);
    try (destruct s, s'; simpl; intros; try discriminate; reflexivity).
Qed.

End FloatFacts.

Section ListFacts.

Context {A : Type}.

Lemma sublist_refl (l : list A) : sublist l l.
Proof. induction l; constructor; assumption. Qed.

Lemma sublist_trans (l1 l2 l3 : list A) :
  sublist l1 l2 -> sublist l2 l3 -> sublist l1 l3.
Proof.
  intros H12 H23. revert l1 H12.
  induction H23 as [|x l2 l3 H23 IH|x l2 l3 H23 IH]; intros l1 H12.
  - assumption.
  - constructor. apply IH. assumption.
  - inversion H12; subst.
    + constructor. apply IH. assumption.
    + apply sublist_keep. apply IH. assumption.
Qed.

Lemma sublist_filter (f : A -> bool) (l : list A) : sublist (filter f l) l.
Proof.
  induction l as [|x l IH]; simpl.
  - constructor.
  - destruct (f x); constructor; assumption.
Qed.

Lemma sublist_length (l1 l2 : list A) :
  sublist l1 l2 -> (List.length l1 <= List.length l2)%nat.
Proof. induction 1; simpl; lia. Qed.

Lemma sublist_In (l1 l2 : list A) :
  sublist l1 l2 -> forall x, In x l1 -> In x l2.
Proof.
  induction 1 as [|y l1 l2 H IH|y l1 l2 H IH]; intros x Hx.
  - assumption.
  - right. apply IH. assumption.
  - destruct Hx as [->|Hx]; [left; reflexivity | right; apply IH; assumption].
Qed.

End ListFacts.

(** ** Properties of the primary cut and of the run *)

Section Properties.

Variable log10 : float -> float.
Variable cells : scalar.
Variable apply_on_empty : result (list label).
Variable locate : label -> list Z -> nat.

(** C1.  A row is kept by the cut on the primary's observables exactly when
    it is a row of the grid whose logTeff lies strictly between
    log10(Teff - nsigma*Teff_err) and log10(Teff + nsigma*Teff_err), whose
    logg lies strictly between logg -+ nsigma*logg_err and whose logL lies
    strictly between logL -+ nsigma*logL_err; a row with a value equal to
    one of the six bounds is not kept.  The observation is the first row of
    its table: that cut is the table a run without a companion writes (no
    table when the cut is empty). *)
Theorem spectro_box_strict (obs : Obs.row) (nsigma : float)
    (df_Theo : list Theo.row) (r : Theo.row) :
  let teff_lo := log10 (Obs.Teff obs - nsigma * Obs.Teff_err obs)%float in
  let teff_hi := log10 (Obs.Teff obs + nsigma * Obs.Teff_err obs)%float in
  let logg_lo := (Obs.logg obs - nsigma * Obs.logg_err obs)%float in
  let logg_hi := (Obs.logg obs + nsigma * Obs.logg_err obs)%float in
  let logL_lo := (Obs.logL obs - nsigma * Obs.logL_err obs)%float in
  let logL_hi := (Obs.logL obs + nsigma * Obs.logL_err obs)%float in
  (In r (spectro_box log10 obs nsigma df_Theo) <->
     In r df_Theo
     /\ (teff_lo <? Theo.logTeff r)%float = true
     /\ (Theo.logTeff r <? teff_hi)%float = true
     /\ (logg_lo <? Theo.logg r)%float = true
     /\ (Theo.logg r <? logg_hi)%float = true
     /\ (logL_lo <? Theo.logL r)%float = true
     /\ (Theo.logL r <? logL_hi)%float = true)
  /\ ((Theo.logTeff r =? teff_lo)%float = true
      \/ (Theo.logTeff r =? teff_hi)%float = true
      \/ (Theo.logg r =? logg_lo)%float = true
      \/ (Theo.logg r =? logg_hi)%float = true
      \/ (Theo.logL r =? logL_lo)%float = true
      \/ (Theo.logL r =? logL_hi)%float = true ->
      ~ In r (spectro_box log10 obs nsigma df_Theo))
  /\ (forall merit_values_file rest isocloud_grid_summary spectroGrid_file w,
        spectro_constraint log10 cells apply_on_empty locate merit_values_file
          (obs :: rest) df_Theo nsigma None isocloud_grid_summary
          spectroGrid_file w
        = (OK tt,
           {| logged := logged w;
              stored := (nsigma, merit_values_file,
                         node (spectro_box log10 obs nsigma df_Theo))
                        :: stored w |})).
Proof.
  intros teff_lo teff_hi logg_lo logg_hi logL_lo logL_hi.
  assert (Hiff : In r (spectro_box log10 obs nsigma df_Theo) <->
     In r df_Theo
     /\ (teff_lo <? Theo.logTeff r)%float = true
     /\ (Theo.logTeff r <? teff_hi)%float = true
     /\ (logg_lo <? Theo.logg r)%float = true
     /\ (Theo.logg r <? logg_hi)%float = true
     /\ (logL_lo <? Theo.logL r)%float = true
     /\ (Theo.logL r <? logL_hi)%float = true).
  { unfold spectro_box. rewrite !filter_In. unfold gtb.
    fold teff_lo teff_hi logg_lo logg_hi logL_lo logL_hi. tauto. }
  split; [exact Hiff|]. split; [|reflexivity].
  intros Hedge Hin. apply Hiff in Hin.
  destruct Hin as (_ & H1 & H2 & H3 & H4 & H5 & H6).
  destruct Hedge as [E|[E|[E|[E|[E|E]]]]].
  - apply eqb_gtb_false in E. unfold gtb in E. congruence.
  - apply eqb_ltb_false in E. congruence.
  - apply eqb_gtb_false in E. unfold gtb in E. congruence.
  - apply eqb_ltb_false in E. congruence.
  - apply eqb_gtb_false in E. unfold gtb in E. congruence.
  - apply eqb_ltb_false in E. congruence.
Qed.

(** Line 123 keeps the rows of a companion track whose [star_age] lies
    strictly inside the age bracket. *)
Lemma in_age_window_In (min_age max_age : Z) (df : Iso.track) (r : Iso.row) :
  In r (in_age_window min_age max_age df) <->
    In r df
    /\ (Py.float_of_int min_age <? Iso.star_age r)%float = true
    /\ (Iso.star_age r <? Py.float_of_int max_age)%float = true.
Proof.
  unfold in_age_window. rewrite filter_In, andb_true_iff. unfold gtb. tauto.
Qed.

(** C6, as the code has it.  A row of a companion track enters the
    age-restricted track exactly when its star_age lies strictly between
    min_age and max_age; a row whose star_age equals min_age or max_age is
    left out. *)
Theorem age_window_exclusive (min_age max_age : Z) (df : Iso.track)
    (r : Iso.row) :
  (In r (in_age_window min_age max_age df) <->
     In r df
     /\ (Py.float_of_int min_age <? Iso.star_age r)%float = true
     /\ (Iso.star_age r <? Py.float_of_int max_age)%float = true)
  /\ ((Iso.star_age r =? Py.float_of_int min_age)%float = true
      \/ (Iso.star_age r =? Py.float_of_int max_age)%float = true ->
      ~ In r (in_age_window min_age max_age df)).
Proof.
  split; [apply in_age_window_In|].
  intros Hedge Hin. apply in_age_window_In in Hin.
  destruct Hin as (_ & Hlo & Hhi).
  destruct Hedge as [E|E].
  - apply eqb_gtb_false in E. unfold gtb in E. congruence.
  - apply eqb_ltb_false in E. congruence.
Qed.

Lemma spectro_box_sublist (obs : Obs.row) (nsigma : float)
    (df_Theo : list Theo.row) :
  sublist (spectro_box log10 obs nsigma df_Theo) df_Theo.
Proof.
  unfold spectro_box.
  repeat (eapply sublist_trans; [apply sublist_filter|]).
  apply sublist_refl.
Qed.

Lemma remove_at_sublist {A : Type} (n : nat) (l : list A) :
  sublist (remove_at n l) l.
Proof.
  revert n. induction l as [|x l IH]; intros n; simpl.
  - apply sublist_nil.
  - destruct n as [|n]; [apply sublist_skip, sublist_refl|].
    apply sublist_keep, IH.
Qed.

Lemma drop_sublist (l : label) (df df' : list Theo.row) :
  drop locate l df = OK df' -> sublist df' df.
Proof.
  unfold drop. destruct (filter (hit l) df) as [|x [|y hits]].
  - discriminate.
  - intros [= <-]. apply sublist_filter.
  - destruct (is_unique _); intros [= <-];
      [apply remove_at_sublist | apply sublist_filter].
Qed.

Lemma drop_each_sublist (indices : list label) :
  forall df df', drop_each locate indices df = OK df' -> sublist df' df.
Proof.
  induction indices as [|l rest IH]; simpl; intros df df' H.
  - injection H as <-. apply sublist_refl.
  - destruct (to_drop l); [|apply IH; assumption].
    destruct (drop locate l df) as [df1|e] eqn:Hd; simpl in H; [|discriminate].
    apply sublist_trans with df1; [apply IH; assumption|].
    apply drop_sublist with l. assumption.
Qed.

(** C7.  Whenever a run writes its table, the table is the input grid with
    some rows removed: the surviving rows are rows of the input, with
    their index label and all their columns, in the order of the input,
    so there are no more of them than in the input; nothing else is
    written or logged (when no row survives the file holds no table).  A
    run without a companion on a non-empty observation table always
    writes. *)
Theorem filtering_only_removes (merit_values_file : string)
    (Obs_dFrame : list Obs.row) (df_Theo : list Theo.row) (nsigma : float)
    (spectro_companion : option Companion.spec)
    (isocloud_grid_summary : option Iso.summary)
    (spectroGrid_file : option (list Grid.row)) (w : world) :
  let run := spectro_constraint log10 cells apply_on_empty locate merit_values_file
               Obs_dFrame df_Theo nsigma spectro_companion
               isocloud_grid_summary spectroGrid_file w in
  (fst run = OK tt ->
     exists out,
       stored (snd run) = (nsigma, merit_values_file, node out) :: stored w
       /\ logged (snd run) = logged w
       /\ sublist out df_Theo
       /\ (List.length out <= List.length df_Theo)%nat
       /\ (forall r, In r out -> In r df_Theo))
  /\ (spectro_companion = None -> Obs_dFrame <> [] -> fst run = OK tt).
Proof.
  intro run. subst run. unfold spectro_constraint, io_bind, lift, io_ret, to_hdf.
  destruct Obs_dFrame as [|obs rest]; simpl.
  { split; [discriminate | intros _ H; congruence]. }
  assert (Hsub := spectro_box_sublist obs nsigma df_Theo).
  set (cut := spectro_box log10 obs nsigma df_Theo) in *.
  assert (Hout : forall out, sublist out cut ->
            sublist out df_Theo
            /\ (List.length out <= List.length df_Theo)%nat
            /\ (forall r, In r out -> In r df_Theo)).
  { intros out Ho. assert (Hs : sublist out df_Theo)
      by (eapply sublist_trans; eassumption).
    repeat split; [assumption | apply sublist_length; assumption
                  | apply sublist_In; assumption]. }
  destruct spectro_companion as [companion|]; simpl.
  - split; [|discriminate].
    destruct isocloud_grid_summary as [summary|], spectroGrid_file as [grid|];
      simpl;
      try (unfold logger_error; simpl; discriminate).
    destruct (apply apply_on_empty _ cut) as [indices|e]; simpl; [|discriminate].
    destruct (drop_each locate indices cut) as [out|e] eqn:Hd; simpl; [|discriminate].
    intros _. exists out. repeat split; try apply Hout;
      apply drop_each_sublist with indices; assumption.
  - split; [|reflexivity].
    intros _. exists cut. repeat split; try apply Hout; apply sublist_refl.
Qed.

(** C9, the run at the failing input.  With a companion given and the
    isocloud summary or the grid file missing, the run on a non-empty
    observation table stops at the name [logger], which the module does
    not bind: it ends in NameError with nothing logged and nothing
    written, before any row is handed to the companion search. *)
Theorem missing_grid_stops (merit_values_file : string) (obs : Obs.row)
    (rest : list Obs.row) (df_Theo : list Theo.row) (nsigma : float)
    (companion : Companion.spec)
    (isocloud_grid_summary : option Iso.summary)
    (spectroGrid_file : option (list Grid.row)) (w : world) :
  isocloud_grid_summary = None \/ spectroGrid_file = None ->
  global_bound "logger" = false
  /\ spectro_constraint log10 cells apply_on_empty locate merit_values_file
       (obs :: rest) df_Theo nsigma (Some companion) isocloud_grid_summary
       spectroGrid_file w
     = (Raise NameError, w).
Proof.
  intros H. split; [reflexivity|].
  unfold spectro_constraint, io_bind, lift. simpl.
  destruct isocloud_grid_summary, spectroGrid_file;
    destruct H as [H|H]; try discriminate; reflexivity.
Qed.

End Properties.

(** ** More facts on floats *)

Section FloatOrder.

Lemma SFcompare_refl x : x <> S754_nan -> SFcompare x x = Some Eq.
Proof.
  destruct x as [s|s| |s m e]; simpl; intros H; try congruence.
  - destruct s; reflexivity.
  - destruct s; rewrite Z.compare_refl;
      change (Pos.compare_cont Eq m m) with (Pos.compare m m);
      rewrite Pos.compare_refl; reflexivity.
Qed.

Lemma is_nan_Prim2SF (x : float) : is_nan x = true -> Prim2SF x = S754_nan.
Proof.
  unfold is_nan. rewrite FloatAxioms.eqb_spec. unfold SFeqb. intros H.
  destruct (Prim2SF x) as [s|s| |s m e] eqn:Hx; try reflexivity;
    rewrite SFcompare_refl in H by discriminate; discriminate.
Qed.

(** NaN is neither below nor above anything. *)
Lemma nan_ltb (x y : float) :
  is_nan x = true -> (x <? y)%float = false /\ (y <? x)%float = false.
Proof.
  intros H. apply is_nan_Prim2SF in H.
  rewrite !FloatAxioms.ltb_spec, H. unfold SFltb. simpl.
  destruct (Prim2SF y); split; reflexivity.
Qed.

Lemma SFltb_trans_leb x y z :
  SFltb x y = true -> SFltb y z = true -> SFleb z x = false.
Proof.
  unfold SFltb, SFleb.
  destruct x as [sx|sx| |sx mx ex], y as [sy|sy| |sy my ey],
           z as [sz|sz| |sz mz ez];
    simpl; try discriminate; try reflexivity;
    try (destruct sx; try discriminate; try reflexivity;
         destruct sy; try discriminate; try reflexivity;
         destruct sz; try discriminate; reflexivity);
    try (destruct sx; try discriminate; try reflexivity;
         destruct sz; try discriminate; try reflexivity;
         destruct sy; try discriminate; reflexivity);
    try (destruct sy; try discriminate; try reflexivity;
         destruct sz; try discriminate; try reflexivity;
         destruct sx; try discriminate; reflexivity);
    try (destruct sy; try discriminate; try reflexivity;
         destruct sx; try discriminate; try reflexivity;
         destruct sz; try discriminate; reflexivity);
    try (destruct sz; try discriminate; try reflexivity;
         destruct sx; try discriminate; try reflexivity;
         destruct sy; try discriminate; reflexivity).
  all: destruct sx, sy, sz; simpl; try discriminate; try reflexivity.
  all: change (Pos.compare_cont Eq) with Pos.compare.
  all: destruct (Z.compare_spec ex ey), (Z.compare_spec ey ez),
                (Z.compare_spec ez ex);
       simpl; try discriminate; try reflexivity; try lia.
  all: subst.
  all: destruct (Pos.compare_spec mx my), (Pos.compare_spec my mz),
                (Pos.compare_spec mz mx);
       simpl; try discriminate; try reflexivity; try lia.
Qed.

(** Nothing lies strictly between [lo] and [hi] when [hi <= lo]. *)
Lemma nothing_between (lo x hi : float) :
  (lo <? x)%float = true -> (x <? hi)%float = true ->
  (hi <=? lo)%float = false.
Proof.
  rewrite !FloatAxioms.ltb_spec, leb_spec. apply SFltb_trans_leb.
Qed.




End FloatOrder.

(** ** Facts on rounding *)

Section RoundingFacts.

(** [round_half_even n d] is an integer nearest to n/d, and the even one of
    the two when n/d lies halfway. *)
Lemma round_half_even_close (n d : Z) :
  0 < d ->
  2 * Z.abs (n - d * Py.round_half_even n d) <= d
  /\ (2 * (n mod d) = d -> Z.even (Py.round_half_even n d) = true).
Proof.
  intros Hd. unfold Py.round_half_even.
  pose proof (Z.div_mod n d ltac:(lia)) as Hdm.
  pose proof (Z.mod_pos_bound n d Hd) as Hm.
  destruct (2 * (n mod d) ?= d) eqn:Hc.
  - apply Z.compare_eq in Hc.
    destruct (Z.even (n / d)) eqn:He.
    + split; [lia | intros _; exact He].
    + split; [lia|]. intros _.
      rewrite Z.even_add, He. reflexivity.
  - rewrite Z.compare_lt_iff in Hc. split; lia.
  - rewrite Z.compare_gt_iff in Hc. split; lia.
Qed.

Lemma Py_round_decimal (x : float) (nd : Z) :
  0 <= nd -> decimal_rounding nd x (Py.round x nd).
Proof.
  intros Hnd. unfold decimal_rounding, Py.round.
  destruct (Prim2SF x) as [s|s| |s m e]; try reflexivity.
  assert (Hp : 0 < 10 ^ nd) by (apply Z.pow_pos_nonneg; lia).
  destruct (0 <=? e) eqn:He.
  - apply Z.leb_le in He.
    exists (Z.pos m * 2 ^ e * 10 ^ nd). repeat split.
    assert (0 < 2 ^ e) by (apply Z.pow_pos_nonneg; lia). nia.
  - apply Z.leb_gt in He.
    assert (Hd : 0 < 2 ^ (- e)) by (apply Z.pow_pos_nonneg; lia).
    exists (Py.round_half_even (Z.pos m * 10 ^ nd) (2 ^ (- e))).
    assert (Hk : 0 <= Py.round_half_even (Z.pos m * 10 ^ nd) (2 ^ (- e))).
    { unfold Py.round_half_even.
      assert (0 <= Z.pos m * 10 ^ nd / 2 ^ (- e)) by (apply Z.div_pos; nia).
      destruct (2 * ((Z.pos m * 10 ^ nd) mod 2 ^ (- e)) ?= 2 ^ (- e));
        [destruct (Z.even _)| |]; lia. }
    pose proof (round_half_even_close (Z.pos m * 10 ^ nd) (2 ^ (- e)) Hd)
      as Hclose.
    repeat split; [exact Hk|exact (proj1 Hclose)|exact (proj2 Hclose)].
Qed.

Lemma Np_rint_nearest (t : float) : nearest_integer t (Np.rint t).
Proof.
  unfold nearest_integer, Np.rint.
  destruct (Prim2SF t) as [s|s| |s m e]; try reflexivity.
  destruct (0 <=? e) eqn:He; [reflexivity|].
  apply Z.leb_gt in He.
  assert (Hd : 0 < 2 ^ (- e)) by (apply Z.pow_pos_nonneg; lia).
  exists (Py.round_half_even (Z.pos m) (2 ^ (- e))).
  assert (Hk : 0 <= Py.round_half_even (Z.pos m) (2 ^ (- e))).
  { unfold Py.round_half_even.
    assert (0 <= Z.pos m / 2 ^ (- e)) by (apply Z.div_pos; lia).
    destruct (2 * (Z.pos m mod 2 ^ (- e)) ?= 2 ^ (- e));
      [destruct (Z.even _)| |]; lia. }
  pose proof (round_half_even_close (Z.pos m) (2 ^ (- e)) Hd) as Hclose.
  repeat split; [exact Hk|exact (proj1 Hclose)|exact (proj2 Hclose)].
Qed.

Lemma Np_round_scaled (x : float) (nd : Z) :
  scaled_rounding nd x (Np.round x nd).
Proof.
  unfold scaled_rounding, Np.round.
  exists (Np.rint (x * Py.float_of_int (10 ^ nd))).
  split; [apply Np_rint_nearest | reflexivity].
Qed.

(** [round(x, nd)] on a cell rounds to [nd] decimals. *)
Lemma cell_round_rounded (cells : scalar) (x : float) (nd : Z) :
  0 <= nd -> rounded cells nd x (cell_round cells x nd).
Proof.
  intros Hnd. destruct cells; simpl;
    [apply Py_round_decimal; exact Hnd | apply Np_round_scaled].
Qed.

End RoundingFacts.

(** ** Facts on [max], [min] and [unique] *)

Section ExtremaFacts.








End ExtremaFacts.

(** ** Properties of the age bracket *)

Section AgeBracket.

Variable cells : scalar.



Lemma age_at_not_one (df : list Grid.row) (model : Theo.row) (xc : float) :
  List.length (matching model xc df) <> 1%nat ->
  age_at df model xc = Raise TypeError.
Proof.
  unfold age_at. destruct (matching model xc df) as [|r [|r' l]]; simpl;
    intros H; try reflexivity. congruence.
Qed.

Lemma get_age_unfold (model : Theo.row) (df : list Grid.row)
    (xc_max xc_min : float) :
  Py.max (track_xc model df) = OK xc_max ->
  Py.min (track_xc model df) = OK xc_min ->
  get_age cells model df =
    if near (Theo.Xc model) xc_max then
      max_age <- age_at df model (cell_round cells (Theo.Xc model - 0.01) 2) ;;
      OK (0, max_age)
    else if near (Theo.Xc model) xc_min then
      min_age <- age_at df model (cell_round cells (Theo.Xc model + 0.01) 2) ;;
      age <- age_at df model (cell_round cells (Theo.Xc model) 2) ;;
      OK (min_age, age + age - min_age)
    else
      min_age <- age_at df model (cell_round cells (Theo.Xc model + 0.01) 2) ;;
      max_age <- age_at df model (cell_round cells (Theo.Xc model - 0.01) 2) ;;
      OK (min_age, max_age).
Proof.
  unfold get_age, track_xc. intros -> ->. reflexivity.
Qed.



(** C5.  A lookup of the age bracket that matches no row, or more than
    one, makes [get_age] raise: no row is picked and no age is made up.
    The exception is the TypeError of [int] on a Series that is not of
    length one, unless an earlier lookup of the same call has already
    raised; the companion search of that model raises the same. *)
Theorem get_age_lookup_fatal (log10 : float -> float) (model : Theo.row)
    (df : list Grid.row) (xc_max xc_min : float) :
  Py.max (track_xc model df) = OK xc_max ->
  Py.min (track_xc model df) = OK xc_min ->
  let xc := Theo.Xc model in
  let bad := fun x => List.length (matching model x df) <> 1%nat in
  (near xc xc_max = true -> bad (cell_round cells (xc - 0.01) 2) ->
   get_age cells model df = Raise TypeError)
  /\ (near xc xc_max = false -> bad (cell_round cells (xc + 0.01) 2) ->
      get_age cells model df = Raise TypeError)
  /\ (near xc xc_max = false -> near xc xc_min = true ->
      bad (cell_round cells xc 2) ->
      exists e, get_age cells model df = Raise e
        /\ (e = TypeError
            \/ age_at df model (cell_round cells (xc + 0.01) 2) = Raise e))
  /\ (near xc xc_max = false -> near xc xc_min = false ->
      bad (cell_round cells (xc - 0.01) 2) ->
      exists e, get_age cells model df = Raise e
        /\ (e = TypeError
            \/ age_at df model (cell_round cells (xc + 0.01) 2) = Raise e))
  /\ (forall e spectro_companion isocloud_grid_summary nsigma,
      get_age cells model df = Raise e ->
      enforce_binary_constraints log10 cells model spectro_companion
        isocloud_grid_summary nsigma df = Raise e).
Proof.
  intros Hmax Hmin xc bad. subst xc bad.
  rewrite (get_age_unfold model df xc_max xc_min Hmax Hmin).
  repeat split.
  - intros -> Hb. rewrite (age_at_not_one _ _ _ Hb). reflexivity.
  - intros -> Hb. rewrite (age_at_not_one _ _ _ Hb).
    destruct (near (Theo.Xc model) xc_min); reflexivity.
  - intros -> -> Hb. rewrite (age_at_not_one _ _ _ Hb).
    destruct (age_at df model (cell_round cells (Theo.Xc model + 0.01) 2)) as [a|e];
      simpl.
    + exists TypeError. split; [reflexivity | left; reflexivity].
    + exists e. split; [reflexivity | right; reflexivity].
  - intros -> -> Hb. rewrite (age_at_not_one _ _ _ Hb).
    destruct (age_at df model (cell_round cells (Theo.Xc model + 0.01) 2)) as [a|e];
      simpl.
    + exists TypeError. split; [reflexivity | left; reflexivity].
    + exists e. split; [reflexivity | right; reflexivity].
  - intros e spec summary nsigma He.
    unfold enforce_binary_constraints.
    rewrite (get_age_unfold model df xc_max xc_min Hmax Hmin), He.
    reflexivity.
Qed.

End AgeBracket.

(** ** Properties of the companion search *)

Section CompanionSearch.

Variable log10 : float -> float.
Variable cells : scalar.

Lemma companion_box_nil (spectro_companion : Companion.spec) (nsigma : float) :
  companion_box log10 spectro_companion nsigma [] = [].
Proof.
  unfold companion_box.
  destruct (Companion.Teff spectro_companion),
           (Companion.logg spectro_companion),
           (Companion.logL spectro_companion); reflexivity.
Qed.

Section Loop.

Variables (spectro_companion : Companion.spec) (nsigma : float)
          (min_age max_age : Z) (M2_min M2_max : float).

Let scan := scan_tracks log10 spectro_companion nsigma min_age max_age
              M2_min M2_max.
Let ok := compatible log10 spectro_companion nsigma min_age max_age
            M2_min M2_max.

(** One turn of the loop: leave with [return None] on a [compatible]
    track, go on to the next track otherwise. *)
Lemma scan_cons (item : float * Iso.track) (rest : Iso.cloud) :
  scan (item :: rest) =
    if ok item then (1%nat, true)
    else (S (fst (scan rest)), snd (scan rest)).
Proof.
  subst scan ok. destruct item as [key df]. unfold compatible. simpl.
  destruct ((key <? M2_min)%float || gtb key M2_max); simpl.
  { destruct (scan_tracks _ _ _ _ _ _ _ rest); reflexivity. }
  destruct (in_age_window min_age max_age df) as [|r w] eqn:Hw.
  { simpl. rewrite companion_box_nil. simpl.
    destruct (scan_tracks _ _ _ _ _ _ _ rest); reflexivity. }
  cbn [List.length Nat.eqb].
  destruct (companion_box log10 spectro_companion nsigma (r :: w)) as [|b bs];
    simpl; [|reflexivity].
  destruct (scan_tracks _ _ _ _ _ _ _ rest); reflexivity.
Qed.

Lemma scan_found (items : Iso.cloud) : snd (scan items) = existsb ok items.
Proof.
  induction items as [|item rest IH]; [reflexivity|].
  rewrite scan_cons. simpl. destruct (ok item); simpl; [reflexivity|].
  exact IH.
Qed.

Lemma scan_first (pre : Iso.cloud) (item : float * Iso.track)
    (post : Iso.cloud) :
  ok item = true -> (forall x, In x pre -> ok x = false) ->
  scan (pre ++ item :: post) = (S (List.length pre), true).
Proof.
  intros Hit. induction pre as [|x pre IH]; intros Hpre.
  - simpl app. rewrite scan_cons, Hit. reflexivity.
  - simpl app. rewrite scan_cons, (Hpre x (or_introl eq_refl)).
    rewrite IH by (intros y Hy; apply Hpre; right; assumption).
    reflexivity.
Qed.

Lemma scan_bound (pre : Iso.cloud) (item : float * Iso.track)
    (post : Iso.cloud) :
  ok item = true ->
  (fst (scan (pre ++ item :: post)) <= S (List.length pre))%nat.
Proof.
  intros Hit. induction pre as [|x pre IH].
  - simpl app. rewrite scan_cons, Hit. simpl. lia.
  - simpl app. rewrite scan_cons. destruct (ok x); simpl; lia.
Qed.

Lemma scan_none (items : Iso.cloud) :
  (forall x, In x items -> ok x = false) ->
  scan items = (List.length items, false).
Proof.
  induction items as [|x items IH]; intros Hall; [reflexivity|].
  rewrite scan_cons, (Hall x (or_introl eq_refl)).
  rewrite IH by (intros y Hy; apply Hall; right; assumption).
  reflexivity.
Qed.

Lemma existsb_Permutation (items items' : Iso.cloud) :
  Permutation items items' -> existsb ok items = existsb ok items'.
Proof.
  induction 1 as [|x l l' _ IH|x y l|l l' l'' _ IH1 _ IH2]; simpl.
  - reflexivity.
  - rewrite IH. reflexivity.
  - destruct (ok x), (ok y); reflexivity.
  - congruence.
Qed.

Lemma scan_Permutation (items items' : Iso.cloud) :
  Permutation items items' -> snd (scan items) = snd (scan items').
Proof.
  intros H. rewrite !scan_found. apply existsb_Permutation. assumption.
Qed.

End Loop.

Lemma compatible_iff (spectro_companion : Companion.spec) (nsigma : float)
    (min_age max_age : Z) (M2_min M2_max : float) (item : float * Iso.track) :
  compatible log10 spectro_companion nsigma min_age max_age M2_min M2_max item
    = true <->
  ((fst item <? M2_min)%float = false /\ gtb (fst item) M2_max = false)
  /\ exists r,
       In r (companion_box log10 spectro_companion nsigma
               (in_age_window min_age max_age (snd item))).
Proof.
  unfold compatible.
  rewrite andb_true_iff, !negb_true_iff, orb_false_iff.
  destruct (companion_box log10 spectro_companion nsigma
              (in_age_window min_age max_age (snd item))) as [|r l]; simpl.
  - split; [intros [_ H]; discriminate | intros [_ [r []]]].
  - split; [intros [H _]; split; [exact H | exists r; left; reflexivity]
           | intros [H _]; split; [exact H | reflexivity]].
Qed.

Lemma get_same_tracks (s1 s2 : Iso.summary) (key : float) :
  same_tracks s1 s2 ->
  match Iso.get s1 key, Iso.get s2 key with
  | OK c1, OK c2 => Permutation c1 c2
  | Raise e1, Raise e2 => e1 = e2
  | _, _ => False
  end.
Proof.
  induction 1 as [|[k1 c1] [k2 c2] s1 s2 [Hk Hc] _ IH]; simpl.
  - reflexivity.
  - simpl in Hk, Hc. subst k2. destruct (k1 =? key)%float; assumption.
Qed.

(** C3.  The loop over the mass tracks returns "the model stays" as soon
    as it meets a compatible track: with a compatible track in the dict it
    takes from the dict no track that comes after that one, and at the
    first compatible track it leaves having taken that track and the ones
    before it only, whatever comes after.  What it returns is the same for
    every order of the tracks, for the loop and for
    [enforce_binary_constraints] as a whole, which returns None as soon as
    a track filed under the model's metallicity is compatible.  A track is
    compatible when its mass is not outside [M2_min, M2_max] and a row of
    it is left by the age window and by the companion's box. *)
Theorem companion_search_short_circuit (spectro_companion : Companion.spec)
    (nsigma : float) :
  (forall min_age max_age M2_min M2_max item,
     compatible log10 spectro_companion nsigma min_age max_age M2_min M2_max item
       = true <->
     ((fst item <? M2_min)%float = false /\ gtb (fst item) M2_max = false)
     /\ exists r,
          In r (companion_box log10 spectro_companion nsigma
                  (in_age_window min_age max_age (snd item))))
  /\ (forall min_age max_age M2_min M2_max pre item post,
        compatible log10 spectro_companion nsigma min_age max_age M2_min M2_max
          item = true ->
        let run := scan_tracks log10 spectro_companion nsigma min_age max_age
                     M2_min M2_max (pre ++ item :: post) in
        snd run = true
        /\ (fst run <= S (List.length pre))%nat
        /\ ((forall x, In x pre ->
               compatible log10 spectro_companion nsigma min_age max_age
                 M2_min M2_max x = false) ->
            fst run = S (List.length pre)))
  /\ (forall min_age max_age M2_min M2_max items items',
        Permutation items items' ->
        snd (scan_tracks log10 spectro_companion nsigma min_age max_age
               M2_min M2_max items)
        = snd (scan_tracks log10 spectro_companion nsigma min_age max_age
                 M2_min M2_max items'))
  /\ (forall model summary summary' grid,
        same_tracks summary summary' ->
        enforce_binary_constraints log10 cells model spectro_companion summary
          nsigma grid
        = enforce_binary_constraints log10 cells model spectro_companion summary'
            nsigma grid)
  /\ (forall model summary grid min_age max_age M2_min M2_max cloud item,
        get_age cells model grid = OK (min_age, max_age) ->
        mass_range cells model spectro_companion = OK (M2_min, M2_max) ->
        Iso.get summary (Theo.Zini model) = OK cloud ->
        In item cloud ->
        compatible log10 spectro_companion nsigma min_age max_age M2_min M2_max
          item = true ->
        enforce_binary_constraints log10 cells model spectro_companion summary
          nsigma grid = OK None).
Proof.
  split; [|split; [|split; [|split]]].
  - intros. apply compatible_iff.
  - intros min_age max_age M2_min M2_max pre item post Hok run. subst run.
    split; [|split].
    + rewrite scan_found, existsb_app. simpl. rewrite Hok.
      rewrite orb_true_r. reflexivity.
    + apply scan_bound. assumption.
    + intros Hpre. rewrite scan_first by assumption. reflexivity.
  - intros. apply scan_Permutation; assumption.
  - intros model summary summary' grid Hs.
    unfold enforce_binary_constraints.
    destruct (get_age cells model grid) as [[min_age max_age]|e]; [|reflexivity].
    destruct (mass_range cells model spectro_companion) as [[M2_min M2_max]|e];
      [|reflexivity].
    simpl.
    pose proof (get_same_tracks summary summary' (Theo.Zini model) Hs) as Hg.
    destruct (Iso.get summary (Theo.Zini model)) as [c1|e1],
             (Iso.get summary' (Theo.Zini model)) as [c2|e2];
      simpl; try contradiction.
    + rewrite (scan_Permutation spectro_companion nsigma min_age max_age
                 M2_min M2_max c1 c2 Hg). reflexivity.
    + congruence.
  - intros model summary grid min_age max_age M2_min M2_max cloud item
      Hage Hrange Hget Hin Hok.
    unfold enforce_binary_constraints. rewrite Hage, Hrange, Hget. simpl.
    rewrite scan_found.
    replace (existsb _ cloud) with true; [reflexivity|].
    symmetry. apply existsb_exists. exists item. split; assumption.
Qed.

(** C4, as the code has it.  When the primary pulsates the companion mass
    range is M*(q - q_err) and M*(q + q_err), each rounded to 1 decimal,
    for every model and every companion.  When the secondary pulsates it
    is M/(q + q_err) and M/(q - q_err), each rounded to 1 decimal, with
    the IEEE quotients for float64 cells; for Python floats it is so
    unless q + q_err or q - q_err is zero, and then there is no range:
    the division raises ZeroDivisionError.  Rounding is Python's for Python
    floats and numpy's for float64 cells. *)
Theorem companion_mass_range (model : Theo.row)
    (spectro_companion : Companion.spec) :
  let M := Theo.M model in
  let q := Companion.q spectro_companion in
  let q_err := Companion.q_err spectro_companion in
  (Companion.primary_pulsates spectro_companion = true ->
   exists M2_min M2_max,
     mass_range cells model spectro_companion = OK (M2_min, M2_max)
     /\ rounded cells 1 (M * (q - q_err)) M2_min
     /\ rounded cells 1 (M * (q + q_err)) M2_max)
  /\ (Companion.primary_pulsates spectro_companion = false ->
      if match cells with
         | PyFloat => (q + q_err =? 0)%float || (q - q_err =? 0)%float
         | NpFloat64 => false
         end
      then mass_range cells model spectro_companion = Raise ZeroDivisionError
      else
        exists M2_min M2_max,
          mass_range cells model spectro_companion = OK (M2_min, M2_max)
          /\ rounded cells 1 (M / (q + q_err)) M2_min
          /\ rounded cells 1 (M / (q - q_err)) M2_max).
Proof.
  intros M q q_err. subst M q q_err. unfold mass_range. split.
  - intros ->. do 2 eexists. split; [reflexivity|].
    split; apply cell_round_rounded; lia.
  - intros ->. destruct cells; simpl; unfold Py.truediv.
    + destruct (_ + _ =? 0)%float; simpl; [reflexivity|].
      destruct (_ - _ =? 0)%float; simpl; [reflexivity|].
      do 2 eexists. split; [reflexivity|].
      split; apply (cell_round_rounded PyFloat); lia.
    + do 2 eexists. split; [reflexivity|].
      split; apply (cell_round_rounded NpFloat64); lia.
Qed.

(** C8, as the code has it.  For M = 5.0, q = 0.5 and q_err = 0.05 the
    companion mass range is (2.2, 2.8) when the primary pulsates and
    (9.1, 11.1) when the secondary does, for both kinds of scalar. *)
Theorem mass_range_5_05_005 :
  mass_range cells Sample.young (Sample.companion true 0.5 0.05)
  = OK (2.2, 2.8)%float
  /\ mass_range cells Sample.young (Sample.companion false 0.5 0.05)
     = OK (9.1, 11.1)%float.
Proof. destruct cells; split; vm_compute; reflexivity. Qed.

(** C8, as the claim has it, fails, for both kinds of scalar: the bounds
    are not 2.25 and 2.75 in the first configuration (2.25 and 2.75 have two
    decimals), and not 4.55 and 5.56 in the second. *)
Lemma mass_range_5_05_005_not_as_claimed :
  Theo.M Sample.young = 5.0%float
  /\ mass_range PyFloat Sample.young (Sample.companion true 0.5 0.05)
     <> OK (2.25, 2.75)%float
  /\ mass_range PyFloat Sample.young (Sample.companion false 0.5 0.05)
     <> OK (4.55, 5.56)%float
  /\ mass_range NpFloat64 Sample.young (Sample.companion true 0.5 0.05)
     <> OK (2.25, 2.75)%float
  /\ mass_range NpFloat64 Sample.young (Sample.companion false 0.5 0.05)
     <> OK (4.55, 5.56)%float.
Proof.
  split; [reflexivity|].
  repeat split; intros H;
    apply (f_equal (fun r => match r with
                             | OK (lo, _) =>
                                 (lo =? 2.25)%float || (lo =? 4.55)%float
                             | Raise _ => false
                             end)) in H;
    vm_compute in H; discriminate.
Qed.

(** C10.  In the secondary-pulsates configuration nothing guards the two
    divisions.  With q_err = q, a finite number, and Python floats, the
    mass range raises ZeroDivisionError, and so does the companion search
    once the age bracket has been found: no decision comes out.  (With
    numpy float64 scalars the same division gives an infinite upper bound:
    for M = 5 and q = q_err = 0.5 the range is (5.0, inf).)  There are a
    model and a companion with q_err > q whose upper mass bound is
    negative.  And under a negative upper bound every track of
    non-negative mass is passed over: the loop runs through the whole dict
    and the model is dropped, whatever the tracks hold. *)
Theorem secondary_range_unguarded :
  (forall model spectro_companion,
     Companion.primary_pulsates spectro_companion = false ->
     Companion.q_err spectro_companion = Companion.q spectro_companion ->
     (Companion.q spectro_companion =? Companion.q spectro_companion)%float
       = true ->
     (abs (Companion.q spectro_companion) =? infinity)%float = false ->
     mass_range PyFloat model spectro_companion = Raise ZeroDivisionError
     /\ (forall summary nsigma grid ages,
           get_age PyFloat model grid = OK ages ->
           enforce_binary_constraints log10 PyFloat model spectro_companion
             summary nsigma grid = Raise ZeroDivisionError))
  /\ mass_range NpFloat64 Sample.young (Sample.companion false 0.5 0.5)
     = OK (5.0%float, infinity)
  /\ (exists model spectro_companion M2_min M2_max,
        Companion.primary_pulsates spectro_companion = false
        /\ (0 <? Theo.M model)%float = true
        /\ (0 <? Companion.q spectro_companion)%float = true
        /\ (Companion.q spectro_companion
             <? Companion.q_err spectro_companion)%float = true
        /\ mass_range cells model spectro_companion = OK (M2_min, M2_max)
        /\ (M2_max <? 0)%float = true)
  /\ (forall model spectro_companion summary nsigma grid ages M2_min M2_max
        cloud,
        get_age cells model grid = OK ages ->
        mass_range cells model spectro_companion = OK (M2_min, M2_max) ->
        (M2_max <? 0)%float = true ->
        Iso.get summary (Theo.Zini model) = OK cloud ->
        (forall item, In item cloud -> (0 <=? fst item)%float = true) ->
        scan_tracks log10 spectro_companion nsigma (fst ages) (snd ages)
          M2_min M2_max cloud = (List.length cloud, false)
        /\ enforce_binary_constraints log10 cells model spectro_companion
             summary nsigma grid = OK (Some (Theo.name model))).
Proof.
  split; [|split; [|split]].
  - intros model spec Hpp Herr Hnan Hinf.
    assert (Hrange : mass_range PyFloat model spec = Raise ZeroDivisionError).
    { unfold mass_range, cell_div, Py.truediv. rewrite Hpp, Herr.
      destruct (_ + _ =? 0)%float; [reflexivity|]. simpl.
      rewrite (sub_diag_zero _ Hnan Hinf). reflexivity. }
    split; [exact Hrange|].
    intros summary nsigma grid [min_age max_age] Hage.
    unfold enforce_binary_constraints. rewrite Hage, Hrange. reflexivity.
  - vm_compute. reflexivity.
  - exists Sample.young, (Sample.companion false 0.5 0.6), 4.5%float, (-50)%float.
    destruct cells; repeat split; vm_compute; reflexivity.
  - intros model spec summary nsigma grid [min_age max_age] M2_min M2_max cloud
      Hage Hrange Hneg Hget Hkeys.
    assert (Hscan : scan_tracks log10 spec nsigma min_age max_age M2_min M2_max
                      cloud = (List.length cloud, false)).
    { apply scan_none. intros [key df] Hin. unfold compatible. simpl.
      rewrite (neg_lt_nonneg M2_max key Hneg (Hkeys _ Hin)).
      rewrite orb_true_r. reflexivity. }
    split; [exact Hscan|].
    unfold enforce_binary_constraints. rewrite Hage, Hrange, Hget. simpl.
    rewrite Hscan. reflexivity.
Qed.

End CompanionSearch.


(** ** Further properties of the cuts, the search and the runtime *)

Section Further.

Variable log10 : float -> float.
Variable cells : scalar.
Variable apply_on_empty : result (list label).
Variable locate : label -> list Z -> nat.

Lemma filter_filter {A : Type} (f g : A -> bool) (l : list A) :
  filter f (filter g l) = filter (fun x => g x && f x) l.
Proof.
  induction l as [|x l IH]; simpl; [reflexivity|].
  destruct (g x); simpl; [destruct (f x)|]; rewrite IH; reflexivity.
Qed.

Lemma filter_idempotent {A : Type} (f : A -> bool) (l : list A) :
  filter f (filter f l) = filter f l.
Proof.
  induction l as [|x l IH]; simpl; [reflexivity|].
  destruct (f x) eqn:Hf; simpl; [rewrite Hf, IH|rewrite IH]; reflexivity.
Qed.

Lemma spectro_box_filter (obs : Obs.row) (nsigma : float)
    (df_Theo : list Theo.row) :
  spectro_box log10 obs nsigma df_Theo
  = filter (in_box log10 obs nsigma) df_Theo.
Proof.
  unfold spectro_box. rewrite !filter_filter.
  apply filter_ext. intros r. unfold in_box. rewrite !andb_assoc. reflexivity.
Qed.

(** X1.  The six cuts of lines 30-35 amount to one filter by the
    conjunction of the six strict comparisons: the cuts are independent
    intervals and combine by conjunction, in whatever order they are
    listed. *)
Theorem spectro_box_one_filter (obs : Obs.row) (nsigma : float)
    (df_Theo : list Theo.row) :
  spectro_box log10 obs nsigma df_Theo
  = filter (in_box log10 obs nsigma) df_Theo
  /\ forall r, In r (spectro_box log10 obs nsigma df_Theo) <->
                In r df_Theo /\ in_box log10 obs nsigma r = true.
Proof.
  split; [apply spectro_box_filter|].
  intros r. rewrite spectro_box_filter. apply filter_In.
Qed.

(** X2.  Cutting a table that has been cut, with the same observation and
    the same nsigma, changes nothing. *)
Theorem spectro_box_idempotent (obs : Obs.row) (nsigma : float)
    (df_Theo : list Theo.row) :
  spectro_box log10 obs nsigma (spectro_box log10 obs nsigma df_Theo)
  = spectro_box log10 obs nsigma df_Theo.
Proof.
  rewrite !spectro_box_filter. apply filter_idempotent.
Qed.

(** X3.  A row of a companion track survives the companion's cut exactly
    when, for each of Teff, logg and logL that the companion gives, its
    value lies strictly inside the n-sigma interval (in log10 of the
    linear bounds for Teff); an observable that is None imposes nothing. *)
Theorem companion_box_In (spectro_companion : Companion.spec)
    (nsigma : float) (df : Iso.track) (r : Iso.row) :
  In r (companion_box log10 spectro_companion nsigma df) <->
    In r df
    /\ (forall teff, Companion.Teff spectro_companion = Some teff ->
        (log10 (teff - nsigma * Companion.Teff_err spectro_companion)%float
           <? Iso.log_Teff r)%float = true
        /\ (Iso.log_Teff r
              <? log10 (teff + nsigma * Companion.Teff_err spectro_companion)%float
            )%float = true)
    /\ (forall logg, Companion.logg spectro_companion = Some logg ->
        (logg - nsigma * Companion.logg_err spectro_companion
           <? Iso.log_g r)%float = true
        /\ (Iso.log_g r
              <? logg + nsigma * Companion.logg_err spectro_companion)%float
           = true)
    /\ (forall logL, Companion.logL spectro_companion = Some logL ->
        (logL - nsigma * Companion.logL_err spectro_companion
           <? Iso.log_L r)%float = true
        /\ (Iso.log_L r
              <? logL + nsigma * Companion.logL_err spectro_companion)%float
           = true).
Proof.
  unfold companion_box, gtb.
  destruct (Companion.Teff spectro_companion) as [teff|],
           (Companion.logg spectro_companion) as [logg|],
           (Companion.logL spectro_companion) as [logL|];
    rewrite ?filter_In;
    (split;
     [ intros H; decompose [and] H;
       repeat split; intros;
       try discriminate;
       repeat match goal with E : Some _ = Some _ |- _ => injection E as <- end;
       assumption
     | intros (Hin & H1 & H2 & H3);
       try (destruct (H1 _ eq_refl)); try (destruct (H2 _ eq_refl));
       try (destruct (H3 _ eq_refl));
       repeat split; assumption ]).
Qed.

(** X4.  When no track filed under the model's metallicity is compatible
    with the model, the companion search returns the model's index label:
    the model is to be dropped. *)
Theorem no_compatible_track_drops (model : Theo.row)
    (spectro_companion : Companion.spec) (summary : Iso.summary)
    (nsigma : float) (grid : list Grid.row) (min_age max_age : Z)
    (M2_min M2_max : float) (cloud : Iso.cloud) :
  get_age cells model grid = OK (min_age, max_age) ->
  mass_range cells model spectro_companion = OK (M2_min, M2_max) ->
  Iso.get summary (Theo.Zini model) = OK cloud ->
  (forall item, In item cloud ->
     compatible log10 spectro_companion nsigma min_age max_age M2_min M2_max
       item = false) ->
  enforce_binary_constraints log10 cells model spectro_companion summary
    nsigma grid = OK (Some (Theo.name model)).
Proof.
  intros Hage Hrange Hget Hnone.
  unfold enforce_binary_constraints. rewrite Hage, Hrange, Hget. simpl.
  rewrite scan_none by exact Hnone. reflexivity.
Qed.

(** X5.  A cut that leaves no row is no error, and no table is written:
    the run without a companion returns, and the file it has written anew
    holds no node under the key. *)
Theorem empty_cut_writes_no_table (merit_values_file : string) (obs : Obs.row)
    (rest : list Obs.row) (df_Theo : list Theo.row) (nsigma : float)
    (isocloud_grid_summary : option Iso.summary)
    (spectroGrid_file : option (list Grid.row)) (w : world) :
  spectro_box log10 obs nsigma df_Theo = [] ->
  spectro_constraint log10 cells apply_on_empty locate merit_values_file
    (obs :: rest) df_Theo nsigma None isocloud_grid_summary spectroGrid_file w
  = (OK tt, {| logged := logged w;
               stored := (nsigma, merit_values_file, None) :: stored w |}).
Proof.
  intros Hcut. unfold spectro_constraint, io_bind, lift, io_ret, to_hdf.
  simpl. rewrite Hcut. reflexivity.
Qed.

(** X6.  The Teff bounds are taken in linear space: for Teff = 6000,
    Teff_err = 100 and nsigma = 3 a surviving row has its logTeff strictly
    between log10(5700) and log10(6300). *)
Theorem teff_bounds_linear_space (logg logg_err logL logL_err : float)
    (df_Theo : list Theo.row) (r : Theo.row) :
  In r (spectro_box log10
          {| Obs.Teff := 6000; Obs.Teff_err := 100;
             Obs.logg := logg; Obs.logg_err := logg_err;
             Obs.logL := logL; Obs.logL_err := logL_err |} 3 df_Theo) ->
  (log10 5700 <? Theo.logTeff r)%float = true
  /\ (Theo.logTeff r <? log10 6300)%float = true.
Proof.
  rewrite spectro_box_filter, filter_In. unfold in_box, gtb. simpl.
  change (6000 + 3 * 100)%float with 6300%float.
  change (6000 - 3 * 100)%float with 5700%float.
  rewrite !andb_true_iff. tauto.
Qed.

End Further.

Section Runtime.

(** X8.  [int] of a float truncates toward zero: on a finite non-zero
    float of sign s, mantissa m and exponent e it returns the integer part
    of m * 2^e with the sign s; it raises on the infinities and on NaN. *)
Theorem int_truncates (x : float) :
  match Prim2SF x with
  | S754_zero _ => Py.int x = OK 0
  | S754_infinity _ => Py.int x = Raise OverflowError
  | S754_nan => Py.int x = Raise ValueError
  | S754_finite s m e =>
      exists a, Py.int x = OK (if s then - a else a)
        /\ 0 <= a
        /\ (if 0 <=? e then a = Z.pos m * 2 ^ e
            else a * 2 ^ (- e) <= Z.pos m < (a + 1) * 2 ^ (- e))
  end.
Proof.
  unfold Py.int. destruct (Prim2SF x) as [s|s| |s m e]; try reflexivity.
  destruct (0 <=? e) eqn:He.
  - exists (Z.pos m * 2 ^ e). repeat split.
    apply Z.leb_le in He. apply Z.mul_nonneg_nonneg; [lia|].
    apply Z.pow_nonneg. lia.
  - apply Z.leb_gt in He.
    assert (Hp : 0 < 2 ^ (- e)) by (apply Z.pow_pos_nonneg; lia).
    exists (Z.pos m / 2 ^ (- e)).
    pose proof (Z.div_mod (Z.pos m) (2 ^ (- e)) ltac:(lia)) as Hdm.
    pose proof (Z.mod_pos_bound (Z.pos m) (2 ^ (- e)) Hp) as Hm.
    repeat split.
    + apply Z.div_pos; lia.
    + nia.
    + nia.
Qed.

(** X7.  Python's [round(x, ndigits)] on a finite non-zero float of sign
    s, mantissa m and exponent e returns the float nearest to k / 10^ndigits
    (a zero of sign s when k = 0), where the integer k is m * 2^e * 10^ndigits
    if that is an integer, and otherwise an integer nearest to it, the even
    one when it lies halfway between two; zeros, infinities and NaN are
    returned as they are. *)
Theorem round_is_decimal (x : float) (ndigits : Z) :
  0 <= ndigits ->
  match Prim2SF x with
  | S754_finite s m e =>
      exists k,
        0 <= k
        /\ (if 0 <=? e then k = Z.pos m * 2 ^ e * 10 ^ ndigits
            else 2 * Z.abs (Z.pos m * 10 ^ ndigits - 2 ^ (- e) * k)
                 <= 2 ^ (- e)
                 /\ (2 * ((Z.pos m * 10 ^ ndigits) mod 2 ^ (- e)) = 2 ^ (- e) ->
                     Z.even k = true))
        /\ Py.round x ndigits
           = match k with
             | Z.pos p => Py.nearest_float s p (Z.to_pos (10 ^ ndigits))
             | _ => if s then neg_zero else zero
             end
  | _ => Py.round x ndigits = x
  end.
Proof.
  intros Hnd. unfold Py.round.
  destruct (Prim2SF x) as [s|s| |s m e]; try reflexivity.
  assert (Hp : 0 < 10 ^ ndigits) by (apply Z.pow_pos_nonneg; lia).
  destruct (0 <=? e) eqn:He.
  - apply Z.leb_le in He.
    exists (Z.pos m * 2 ^ e * 10 ^ ndigits). repeat split.
    assert (0 < 2 ^ e) by (apply Z.pow_pos_nonneg; lia). nia.
  - apply Z.leb_gt in He.
    assert (Hd : 0 < 2 ^ (- e)) by (apply Z.pow_pos_nonneg; lia).
    exists (Py.round_half_even (Z.pos m * 10 ^ ndigits) (2 ^ (- e))).
    assert (Hk : 0 <= Py.round_half_even (Z.pos m * 10 ^ ndigits) (2 ^ (- e))).
    { unfold Py.round_half_even.
      assert (0 <= Z.pos m * 10 ^ ndigits / 2 ^ (- e))
        by (apply Z.div_pos; nia).
      destruct (2 * ((Z.pos m * 10 ^ ndigits) mod 2 ^ (- e)) ?= 2 ^ (- e));
        [destruct (Z.even _)| |]; lia. }
    pose proof (round_half_even_close (Z.pos m * 10 ^ ndigits) (2 ^ (- e)) Hd)
      as Hclose.
    repeat split; [exact Hk|exact (proj1 Hclose)|exact (proj2 Hclose)].
Qed.

End Runtime.

(** ** The properties on the sample tables *)

(** The cut at two sigma keeps row 0 of the sample grid and drops the row
    that sits on the upper logg bound. *)
Lemma spectro_box_strict_sample :
  In Sample.young (spectro_box log10_series Sample.obs 2 Sample.df_Theo)
  /\ ~ In Sample.on_edge (spectro_box log10_series Sample.obs 2 Sample.df_Theo).
Proof.
  pose proof (spectro_box_strict log10_series NpFloat64 (Raise KeyError) Sample.first
                Sample.obs 2 Sample.df_Theo Sample.young) as [Hkeep _].
  pose proof (spectro_box_strict log10_series NpFloat64 (Raise KeyError) Sample.first
                Sample.obs 2 Sample.df_Theo Sample.on_edge) as [_ [Hdrop _]].
  split.
  - apply Hkeep. repeat split; try (vm_compute; reflexivity).
    left. reflexivity.
  - apply Hdrop. right. right. right. left. vm_compute. reflexivity.
Defined.


(** A step stored twice and a step that is missing both stop [get_age]. *)
Lemma get_age_lookup_fatal_sample :
  get_age PyFloat Sample.young Sample.grid_gap = Raise TypeError
  /\ (exists e, get_age PyFloat Sample.middle Sample.grid_twice = Raise e).
Proof.
  split.
  - apply (proj1 (get_age_lookup_fatal PyFloat log10_series Sample.young Sample.grid_gap
                    0.70 0.68 ltac:(vm_compute; reflexivity)
                    ltac:(vm_compute; reflexivity))).
    + vm_compute. reflexivity.
    + vm_compute. discriminate.
  - destruct (proj1 (proj2 (proj2 (proj2
        (get_age_lookup_fatal PyFloat log10_series Sample.middle Sample.grid_twice
           0.70 0.68 ltac:(vm_compute; reflexivity)
           ltac:(vm_compute; reflexivity))))))
      as (e & He & _).
    + vm_compute. reflexivity.
    + vm_compute. reflexivity.
    + vm_compute. discriminate.
    + exists e. exact He.
Defined.

(** C6, as the claim has it, fails.  The bracket of the model at Xc = 0.69
    is (1000, 3500); the companion track has a row at age 1000 and one at
    age 3500, both inside the companion's box; neither enters the
    age-restricted track, and the model is dropped for want of them (for
    both kinds of scalar). *)
Lemma age_bracket_bounds_left_out :
  get_age PyFloat Sample.middle Sample.grid = OK (1000, 3500)
  /\ get_age NpFloat64 Sample.middle Sample.grid = OK (1000, 3500)
  /\ map Iso.star_age Sample.track_c = [1000; 2200; 3500]%float
  /\ Py.float_of_int 1000 = 1000%float
  /\ Py.float_of_int 3500 = 3500%float
  /\ in_age_window 1000 3500 Sample.track_c = [Sample.point 2200 4.15 3.5 2.42]
  /\ companion_box log10_series (Sample.companion true 0.5 0.05) 2
       Sample.track_c
     = [Sample.point 1000 4.15 4.3 2.4; Sample.point 3500 4.14 4.3 2.45]
  /\ enforce_binary_constraints log10_series PyFloat Sample.middle
       (Sample.companion true 0.5 0.05) Sample.summary_edge 2 Sample.grid
     = OK (Some 1)
  /\ enforce_binary_constraints log10_series NpFloat64 Sample.middle
       (Sample.companion true 0.5 0.05) Sample.summary_edge 2 Sample.grid
     = OK (Some 1).
Proof. repeat split; vm_compute; reflexivity. Qed.

(** On the sample track at ages 1000, 2200, 3500 the window (1000, 3500)
    keeps the row at 2200 and leaves out the row at 1000. *)
Lemma age_window_exclusive_sample :
  In (Sample.point 2200 4.15 3.5 2.42) (in_age_window 1000 3500 Sample.track_c)
  /\ ~ In (Sample.point 1000 4.15 4.3 2.4)
         (in_age_window 1000 3500 Sample.track_c).
Proof.
  split.
  - apply (proj1 (age_window_exclusive 1000 3500 Sample.track_c _)).
    repeat split; try (vm_compute; reflexivity).
    right. left. reflexivity.
  - apply (proj2 (age_window_exclusive 1000 3500 Sample.track_c _)).
    left. vm_compute. reflexivity.
Defined.

(** The run on the sample grid with the sample companion writes rows 0
    and 1, in that order. *)
Lemma filtering_only_removes_sample :
  exists out,
    map Theo.name out = [0; 1]
    /\ sublist out Sample.df_Theo
    /\ (List.length out <= List.length Sample.df_Theo)%nat.
Proof.
  destruct (proj1 (filtering_only_removes log10_series NpFloat64 (Raise KeyError) Sample.first "grid.hdf"
                     [Sample.obs] Sample.df_Theo 2
                     (Some (Sample.companion true 0.5 0.05))
                     (Some Sample.summary) (Some Sample.grid) Sample.w0))
    as (out & Hst & _ & Hsub & Hlen & _).
  - vm_compute. reflexivity.
  - exists out. split; [|split; assumption].
    vm_compute in Hst. destruct out as [|o out']; [discriminate|].
    injection Hst as <- <-. reflexivity.
Defined.

(** With the sample companion and no isocloud summary the run stops with
    nothing logged and nothing written. *)
Lemma missing_grid_stops_sample :
  spectro_constraint log10_series NpFloat64 (Raise KeyError) Sample.first "grid.hdf"
    [Sample.obs] Sample.df_Theo 2 (Some (Sample.companion true 0.5 0.05))
    None (Some Sample.grid) Sample.w0
  = (Raise NameError, Sample.w0).
Proof.
  apply (missing_grid_stops log10_series NpFloat64 (Raise KeyError) Sample.first
           "grid.hdf" Sample.obs [] Sample.df_Theo 2
           (Sample.companion true 0.5 0.05) None (Some Sample.grid) Sample.w0).
  left. reflexivity.
Defined.

(** For the model at Xc = 0.69 the loop over the sample cloud passes over
    the first track, leaves at the second and never takes the third. *)
Lemma companion_search_short_circuit_sample :
  scan_tracks log10_series (Sample.companion true 0.5 0.05) 2 1000 3500
    2.2 2.8 Sample.cloud = (2%nat, true).
Proof.
  pose proof (proj1 (proj2 (companion_search_short_circuit log10_series
                              PyFloat (Sample.companion true 0.5 0.05) 2))
                1000 3500 2.2%float 2.8%float
                [(2.2%float, Sample.track_a)] (2.5%float, Sample.track_b)
                [(2.9%float, Sample.track_c)]) as H.
  destruct H as (Hfound & _ & Hfirst).
  - vm_compute. reflexivity.
  - change ([(2.2%float, Sample.track_a)]
            ++ (2.5%float, Sample.track_b) :: [(2.9%float, Sample.track_c)])
      with Sample.cloud in *.
    rewrite (surjective_pairing (scan_tracks _ _ _ _ _ _ _ Sample.cloud)).
    rewrite Hfound, Hfirst; [reflexivity|].
    intros x [<-|[]]. vm_compute. reflexivity.
Defined.

(** With q = q_err = 0.5 and the secondary pulsating, the mass range of the
    sample model raises. *)
Lemma secondary_range_unguarded_sample :
  mass_range PyFloat Sample.young (Sample.companion false 0.5 0.5)
  = Raise ZeroDivisionError.
Proof.
  apply (proj1 (secondary_range_unguarded log10_series PyFloat)
           Sample.young (Sample.companion false 0.5 0.5));
    vm_compute; reflexivity.
Defined.

(** C4, as the claim has it, fails.  For a row of Python floats with
    M = 5.0 and a pulsating secondary with q = q_err = 0.25, the divisor
    q - q_err is zero: there is no companion mass range, the computation
    raises ZeroDivisionError, and so does the companion search on the
    sample grid. *)
Lemma mass_range_needs_divisor :
  (Companion.q (Sample.companion false 0.25 0.25)
   - Companion.q_err (Sample.companion false 0.25 0.25) =? 0)%float = true
  /\ mass_range PyFloat Sample.young (Sample.companion false 0.25 0.25)
     = Raise ZeroDivisionError
  /\ (forall M2_min M2_max,
        mass_range PyFloat Sample.young (Sample.companion false 0.25 0.25)
        <> OK (M2_min, M2_max))
  /\ enforce_binary_constraints log10_series PyFloat Sample.young
       (Sample.companion false 0.25 0.25) Sample.summary 2 Sample.grid
     = Raise ZeroDivisionError.
Proof.
  split; [vm_compute; reflexivity|].
  split; [vm_compute; reflexivity|].
  split; [intros lo hi; vm_compute; discriminate | vm_compute; reflexivity].
Qed.

(** The model at Xc = 0.68 finds no compatible track in the sample cloud
    and is dropped. *)
Lemma no_compatible_track_drops_sample :
  enforce_binary_constraints log10_series NpFloat64 Sample.old
    (Sample.companion true 0.5 0.05) Sample.summary 2 Sample.grid
  = OK (Some 4).
Proof.
  apply (no_compatible_track_drops log10_series NpFloat64 Sample.old
           (Sample.companion true 0.5 0.05) Sample.summary 2 Sample.grid
           2000 5000 2.2%float 2.8%float Sample.cloud).
  - vm_compute. reflexivity.
  - vm_compute. reflexivity.
  - vm_compute. reflexivity.
  - intros item [<-|[<-|[<-|[]]]]; vm_compute; reflexivity.
Defined.

(** At zero sigma the box is empty and the file the run writes holds no
    table. *)
Lemma empty_cut_writes_no_table_sample :
  spectro_constraint log10_series NpFloat64 (Raise KeyError) Sample.first "grid.hdf"
    [Sample.obs] Sample.df_Theo 0 None None None Sample.w0
  = (OK tt, {| logged := []; stored := [(0%float, "grid.hdf"%string, None)] |}).
Proof.
  apply (empty_cut_writes_no_table log10_series NpFloat64 (Raise KeyError) Sample.first
           "grid.hdf" Sample.obs [] Sample.df_Theo 0 None None Sample.w0).
  vm_compute. reflexivity.
Defined.

(** A row at logTeff = 3.778 survives the three-sigma cut around
    Teff = 6000 +- 100. *)
Lemma teff_bounds_linear_space_sample :
  (log10_series 5700 <? 3.778)%float = true
  /\ (3.778 <? log10_series 6300)%float = true.
Proof.
  apply (teff_bounds_linear_space log10_series 4.0 0.1 1.0 0.05
           Sample.df_Theo Sample.young).
  vm_compute. left. reflexivity.
Defined.

(** On 2.25, which lies halfway between 2.2 and 2.3, Python's round to one
    decimal returns 2.2. *)
Lemma round_is_decimal_sample :
  match Prim2SF 2.25 with
  | S754_finite s m e =>
      exists k,
        0 <= k
        /\ (if 0 <=? e then k = Z.pos m * 2 ^ e * 10 ^ 1
            else 2 * Z.abs (Z.pos m * 10 ^ 1 - 2 ^ (- e) * k) <= 2 ^ (- e)
                 /\ (2 * ((Z.pos m * 10 ^ 1) mod 2 ^ (- e)) = 2 ^ (- e) ->
                     Z.even k = true))
        /\ Py.round 2.25 1
           = match k with
             | Z.pos p => Py.nearest_float s p (Z.to_pos (10 ^ 1))
             | _ => if s then neg_zero else zero
             end
  | _ => Py.round 2.25 1 = 2.25%float
  end.
Proof.
  apply (round_is_decimal 2.25 1). discriminate.
Defined.

(** ** The script: when it starts the stages *)

Section ScriptProperties.

Variable import_module : string -> Pipeline.run unit.

Lemma prefix_app (x s : string) :
  String.prefix x s = true <-> exists post, s = (x ++ post)%string.
Proof.
  revert s. induction x as [|a x IH]; intros s.
  - destruct s; simpl; split; eauto.
  - destruct s as [|b s]; simpl.
    + split; [discriminate | intros [post H]; discriminate].
    + destruct (Ascii.ascii_dec a b) as [->|Hne].
      * rewrite IH. split; intros [post H]; exists post.
        -- rewrite H. reflexivity.
        -- injection H as H. exact H.
      * split; [discriminate|]. intros [post H]. injection H as Hab _.
        congruence.
Qed.

Lemma contains_occurs (x s : string) :
  Pipeline.contains x s = true <-> occurs x s.
Proof.
  unfold occurs. induction s as [|b s IH].
  - cbn [Pipeline.contains]. rewrite orb_false_r, prefix_app. split.
    + intros [post H]. exists EmptyString, post. exact H.
    + intros [pre [post H]]. destruct pre as [|c pre]; [|discriminate].
      exists post. exact H.
  - cbn [Pipeline.contains]. rewrite orb_true_iff, prefix_app, IH. split.
    + intros [[post H]|[pre [post H]]].
      * exists EmptyString, post. exact H.
      * exists (String b pre), post. simpl. rewrite H. reflexivity.
    + intros [pre [post H]]. destruct pre as [|c pre].
      * left. exists post. exact H.
      * right. exists pre, post. simpl in H. injection H as _ H. exact H.
Qed.

Lemma match_obsAndTheory_existsb (used : string) (obs_list : list string) :
  match_obsAndTheory used obs_list = existsb (Pipeline.contains used) obs_list.
Proof.
  unfold match_obsAndTheory.
  assert (H : forall flag,
            fold_left (fun flag obs =>
                         if Pipeline.contains used obs then true else flag)
              obs_list flag
            = flag || existsb (Pipeline.contains used) obs_list).
  { induction obs_list as [|o l IH]; intros flag; simpl.
    - rewrite orb_false_r. reflexivity.
    - rewrite IH. destruct (Pipeline.contains used o), flag; reflexivity. }
  apply H.
Qed.

Lemma match_obsAndTheory_true (used : string) (obs_list : list string) :
  match_obsAndTheory used obs_list = true <-> Exists (occurs used) obs_list.
Proof.
  rewrite match_obsAndTheory_existsb, existsb_exists, Exists_exists.
  split; intros [o [Hin Ho]]; exists o; split; try assumption;
    apply contains_occurs; assumption.
Qed.

Lemma check_observables_pass (c : Pipeline.config)
    (lists : list (list string)) (s : Pipeline.state) :
  Forall (Exists (occurs (Pipeline.periods_or_frequencies_observed c))) lists ->
  check_observables c lists s = (OK tt, s).
Proof.
  induction 1 as [|l lists Hl _ IH]; simpl; [reflexivity|].
  apply match_obsAndTheory_true in Hl. rewrite Hl. exact IH.
Qed.

Lemma check_observables_stop (c : Pipeline.config)
    (lists : list (list string)) (s : Pipeline.state) :
  Exists (Forall (fun obs =>
            ~ occurs (Pipeline.periods_or_frequencies_observed c) obs)) lists ->
  check_observables c lists s
  = (Raise SystemExit,
     {| Pipeline.cfg := Pipeline.cfg s; Pipeline.cwd := Pipeline.cwd s;
        Pipeline.made := Pipeline.made s;
        Pipeline.errors :=
          Pipeline.errors s
          ++ [Pipeline.ObservablesMismatch (Pipeline.observable_list c)
                (Pipeline.periods_or_frequencies_observed c)] |}).
Proof.
  induction lists as [|l lists IH]; intros H.
  - inversion H.
  - simpl.
    destruct (match_obsAndTheory (Pipeline.periods_or_frequencies_observed c) l)
      eqn:Hl.
    + apply IH. inversion H as [? ? Hbad|]; subst; [|assumption].
      apply match_obsAndTheory_true in Hl.
      apply Exists_exists in Hl. destruct Hl as [o [Hin Ho]].
      rewrite Forall_forall in Hbad. exfalso. exact (Hbad o Hin Ho).
    + reflexivity.
Qed.

Lemma In_existsb_eqb (x : string) (l : list string) :
  existsb (String.eqb x) l = true <-> In x l.
Proof.
  rewrite existsb_exists. split.
  - intros [y [Hin Hy]]. apply String.eqb_eq in Hy. subst. exact Hin.
  - intros Hin. exists x. split; [exact Hin | apply String.eqb_refl].
Qed.

Lemma append_nil_r (s : string) : (s ++ "")%string = s.
Proof. induction s as [|a s IH]; simpl; [|rewrite IH]; reflexivity. Qed.

Lemma append_assoc (s1 s2 s3 : string) :
  (s1 ++ (s2 ++ s3))%string = ((s1 ++ s2) ++ s3)%string.
Proof. induction s1 as [|a s1 IH]; simpl; [|rewrite IH]; reflexivity. Qed.

Lemma concat_cons (x : string) (l : list string) :
  String.concat "" (x :: l) = (x ++ String.concat "" l)%string.
Proof.
  destruct l as [|y l]; simpl; [rewrite append_nil_r|]; reflexivity.
Qed.

Lemma check_fixed_pass (free : list string) (keys : list string) :
  forall (dir : string) (s : Pipeline.state),
    (forall k, In k keys -> ~ In k free) ->
    check_fixed free keys dir s
    = (OK (dir ++ String.concat "" (map (fun k => "_" ++ k) keys))%string, s).
Proof.
  induction keys as [|k keys IH]; intros dir s Hfree.
  - simpl. rewrite append_nil_r. reflexivity.
  - cbn [check_fixed map].
    destruct (existsb (String.eqb k) free) eqn:Hk.
    + apply In_existsb_eqb in Hk. exfalso.
      exact (Hfree k (or_introl eq_refl) Hk).
    + rewrite IH by (intros x Hx; apply Hfree; right; exact Hx).
      rewrite concat_cons, !append_assoc. reflexivity.
Qed.

Lemma check_fixed_stop (free : list string) (pre : list string) (k : string)
    (post : list string) :
  forall (dir : string) (s : Pipeline.state),
    (forall x, In x pre -> ~ In x free) -> In k free ->
    check_fixed free (pre ++ k :: post) dir s
    = (Raise SystemExit,
       {| Pipeline.cfg := Pipeline.cfg s; Pipeline.cwd := Pipeline.cwd s;
          Pipeline.made := Pipeline.made s;
          Pipeline.errors := Pipeline.errors s ++ [Pipeline.FixedAndFree k] |}).
Proof.
  induction pre as [|x pre IH]; intros dir s Hpre Hk.
  - cbn [app check_fixed]. apply In_existsb_eqb in Hk. rewrite Hk. reflexivity.
  - cbn [app check_fixed].
    destruct (existsb (String.eqb x) free) eqn:Hx.
    + apply In_existsb_eqb in Hx. exfalso.
      exact (Hpre x (or_introl eq_refl) Hx).
    + apply IH; [intros y Hy; apply Hpre; right; exact Hy | exact Hk].
Qed.

(** X9.  The script stops before any stage when some list of
    [config.observable_list] holds no observable in which
    [config.periods_or_frequencies_observed] occurs (an empty list is such a
    list): it logs one error and exits, with [config], the working
    directory and the directories as they were. *)
Theorem pipeline_refuses_observables (s : Pipeline.state) :
  Exists (Forall (fun obs =>
            ~ occurs (Pipeline.periods_or_frequencies_observed (Pipeline.cfg s))
                obs))
    (Pipeline.observable_list (Pipeline.cfg s)) ->
  pipeline import_module s
  = (Raise SystemExit,
     {| Pipeline.cfg := Pipeline.cfg s; Pipeline.cwd := Pipeline.cwd s;
        Pipeline.made := Pipeline.made s;
        Pipeline.errors :=
          Pipeline.errors s
          ++ [Pipeline.ObservablesMismatch
                (Pipeline.observable_list (Pipeline.cfg s))
                (Pipeline.periods_or_frequencies_observed (Pipeline.cfg s))] |}).
Proof.
  intros H. unfold pipeline, Pipeline.bind, Pipeline.get.
  rewrite (check_observables_stop _ _ _ H). reflexivity.
Qed.

(** X10.  With observables that pass, the script stops before any stage
    at the first fixed parameter, in the order of the dict, that is a free
    parameter as well: it logs one error, naming that parameter, and
    exits; no directory is made and [config] is as it was. *)
Theorem pipeline_refuses_fixed_and_free (s : Pipeline.state)
    (fixed : list (string * float)) (pre : list string) (k : string)
    (post : list string) :
  Forall (Exists (occurs
            (Pipeline.periods_or_frequencies_observed (Pipeline.cfg s))))
    (Pipeline.observable_list (Pipeline.cfg s)) ->
  Pipeline.fixed_parameters (Pipeline.cfg s) = Some fixed ->
  map fst fixed = pre ++ k :: post ->
  (forall x, In x pre -> ~ In x (Pipeline.free_parameters (Pipeline.cfg s))) ->
  In k (Pipeline.free_parameters (Pipeline.cfg s)) ->
  pipeline import_module s
  = (Raise SystemExit,
     {| Pipeline.cfg := Pipeline.cfg s; Pipeline.cwd := Pipeline.cwd s;
        Pipeline.made := Pipeline.made s;
        Pipeline.errors := Pipeline.errors s ++ [Pipeline.FixedAndFree k] |}).
Proof.
  intros Hobs Hfixed Hkeys Hpre Hk.
  unfold pipeline, Pipeline.bind, Pipeline.get.
  rewrite (check_observables_pass _ _ _ Hobs), Hfixed, Hkeys.
  rewrite (check_fixed_stop _ pre k post _ _ Hpre Hk). reflexivity.
Qed.

(** X11.  When every list of observables holds one in which the observed
    quantity occurs and no fixed parameter is free, the script logs nothing
    and goes on to the stages; with fixed parameters the nested grid is
    named [Nested_grid_fix] followed by [_] and the name of each fixed
    parameter, in the order of the dict. *)
Theorem pipeline_starts (s : Pipeline.state) :
  Forall (Exists (occurs
            (Pipeline.periods_or_frequencies_observed (Pipeline.cfg s))))
    (Pipeline.observable_list (Pipeline.cfg s)) ->
  (forall fixed k,
     Pipeline.fixed_parameters (Pipeline.cfg s) = Some fixed ->
     In k (map fst fixed) ->
     ~ In k (Pipeline.free_parameters (Pipeline.cfg s))) ->
  pipeline import_module s
  = stages import_module
      (option_map
         (fun fixed =>
            ("Nested_grid_fix"
             ++ String.concat "" (map (fun k => "_" ++ k) (map fst fixed)))%string)
         (Pipeline.fixed_parameters (Pipeline.cfg s)))
      s.
Proof.
  intros Hobs Hfree.
  unfold pipeline, Pipeline.bind, Pipeline.get.
  rewrite (check_observables_pass _ _ _ Hobs).
  destruct (Pipeline.fixed_parameters (Pipeline.cfg s)) as [fixed|] eqn:Hf.
  - rewrite check_fixed_pass by (intros k Hk; exact (Hfree fixed k eq_refl Hk)).
    reflexivity.
  - reflexivity.
Qed.

End ScriptProperties.

(** The script on the demo configurations: a list of observables on
    frequencies only, [fov] fixed and free, and a configuration that
    starts, whose stages 2 to 6 run in [/work/Nested_grid_fix_aov_fov]. *)
Lemma pipeline_refuses_observables_demo :
  pipeline Demo.stage (Demo.start Demo.config_mixed)
  = (Raise SystemExit,
     {| Pipeline.cfg := Demo.config_mixed; Pipeline.cwd := "/work";
        Pipeline.made := [];
        Pipeline.errors :=
          [Pipeline.ObservablesMismatch
             (Pipeline.observable_list Demo.config_mixed) "period"] |}).
Proof.
  apply (pipeline_refuses_observables Demo.stage (Demo.start Demo.config_mixed)).
  apply Exists_cons_tl, Exists_cons_hd.
  apply Forall_cons; [|apply Forall_cons; [|apply Forall_nil]];
    intros H; apply contains_occurs in H; discriminate.
Defined.

Lemma pipeline_refuses_fixed_and_free_demo :
  pipeline Demo.stage (Demo.start Demo.config_clash)
  = (Raise SystemExit,
     {| Pipeline.cfg := Demo.config_clash; Pipeline.cwd := "/work";
        Pipeline.made := [];
        Pipeline.errors := [Pipeline.FixedAndFree "fov"] |}).
Proof.
  apply (pipeline_refuses_fixed_and_free Demo.stage
           (Demo.start Demo.config_clash)
           [("aov"%string, 0.2%float); ("fov"%string, 0.01%float)]
           ["aov"%string] "fov" []).
  - apply Forall_cons; [|apply Forall_cons; [|apply Forall_nil]];
      apply Exists_cons_hd; apply contains_occurs; reflexivity.
  - reflexivity.
  - reflexivity.
  - intros x [<-|[]] Hin. simpl in Hin.
    destruct Hin as [H|[H|[H|[]]]]; discriminate.
  - simpl. right. left. reflexivity.
Defined.

Lemma pipeline_starts_demo :
  pipeline Demo.stage (Demo.start Demo.config)
  = stages Demo.stage (Some "Nested_grid_fix_aov_fov"%string)
      (Demo.start Demo.config).
Proof.
  apply (pipeline_starts Demo.stage (Demo.start Demo.config)).
  - apply Forall_cons; [|apply Forall_cons; [|apply Forall_nil]];
      apply Exists_cons_hd; apply contains_occurs; reflexivity.
  - intros fixed k Hf Hk Hin. injection Hf as <-. simpl in Hk, Hin.
    destruct Hk as [<-|[<-|[]]];
      destruct Hin as [H|[H|[H|[]]]]; discriminate.
Defined.

(** ** The float64 an integer is cast to *)

Section CastFacts.

Lemma shr_1_nonneg mrs : 0 <= shr_m mrs -> 0 <= shr_m (shr_1 mrs).
Proof.
  destruct mrs as [m r s]. destruct m as [|p|p]; simpl; intros H;
    [lia | destruct p; simpl; lia | lia].
Qed.

Lemma iter_shr_1_nonneg p :
  forall mrs, 0 <= shr_m mrs -> 0 <= shr_m (iter_pos shr_1 p mrs).
Proof.
  induction p as [p IH|p IH|]; intros mrs H; simpl.
  - apply IH, IH, shr_1_nonneg, H.
  - apply IH, IH, H.
  - apply shr_1_nonneg, H.
Qed.

Lemma shr_fexp_nonneg m e l :
  0 <= m -> 0 <= shr_m (fst (shr_fexp prec emax m e l)).
Proof.
  intros H. unfold shr_fexp, shr.
  assert (H0 : 0 <= shr_m (shr_record_of_loc m l))
    by (destruct l as [|[]]; exact H).
  destruct (fexp prec emax (Zdigits2 m + e) - e); simpl;
    [exact H0 | apply iter_shr_1_nonneg, H0 | exact H0].
Qed.

Lemma binary_round_aux_not_nan sx mx ex lx :
  0 <= mx -> binary_round_aux prec emax sx mx ex lx <> S754_nan.
Proof.
  intros H. unfold binary_round_aux.
  pose proof (shr_fexp_nonneg mx ex lx H) as H1.
  destruct (shr_fexp prec emax mx ex lx) as [mrs' e']. simpl in H1.
  assert (H2 : 0 <= round_nearest_even (shr_m mrs') (loc_of_shr_record mrs')).
  { unfold round_nearest_even.
    destruct (loc_of_shr_record mrs') as [|[]]; try lia.
    destruct (Z.even (shr_m mrs')); lia. }
  pose proof (shr_fexp_nonneg _ e' loc_Exact H2) as H3.
  destruct (shr_fexp prec emax _ e' loc_Exact) as [mrs'' e'']. simpl in H3.
  destruct (shr_m mrs''); [discriminate | | lia].
  destruct (e'' <=? emax - prec); discriminate.
Qed.

Lemma binary_round_not_nan sx mx ex :
  binary_round prec emax sx mx ex <> S754_nan.
Proof.
  unfold binary_round. destruct (shl_align _ _ _) as [mz ez].
  apply binary_round_aux_not_nan. lia.
Qed.

Lemma binary_normalize_not_nan m e szero :
  binary_normalize prec emax m e szero <> S754_nan.
Proof.
  destruct m; simpl; [discriminate | apply binary_round_not_nan ..].
Qed.

Lemma ldexp_not_nan (f : float) (e : Z) :
  Prim2SF f <> S754_nan -> Prim2SF (Z.ldexp f e) <> S754_nan.
Proof.
  intros H. unfold Z.ldexp. rewrite ldshiftexp_spec. unfold SFldexp.
  destruct (Prim2SF f); try congruence. apply binary_round_not_nan.
Qed.

(** The float an integer is cast to is a number. *)
Lemma float_of_int_not_nan (n : Z) : Prim2SF (Py.float_of_int n) <> S754_nan.
Proof.
  unfold Py.float_of_int.
  destruct (binary_normalize prec emax n 0 false) as [s|s| |s m e] eqn:Hn.
  - destruct s; discriminate.
  - destruct s; discriminate.
  - exfalso. exact (binary_normalize_not_nan _ _ _ Hn).
  - assert (Hl : Prim2SF (Z.ldexp (of_uint63 (Uint63.of_Z (Z.pos m))) e)
                 <> S754_nan).
    { apply ldexp_not_nan. rewrite of_uint63_spec.
      apply binary_normalize_not_nan. }
    unfold SF2Prim. destruct s; [|exact Hl].
    rewrite opp_spec. destruct (Prim2SF _); simpl; congruence.
Qed.

Lemma float_of_int_eqb_refl (n : Z) :
  (Py.float_of_int n =? Py.float_of_int n)%float = true.
Proof.
  rewrite FloatAxioms.eqb_spec. unfold SFeqb.
  rewrite SFcompare_refl by apply float_of_int_not_nan. reflexivity.
Qed.

(** Two floats that are equal compare alike with any other. *)
Lemma SFeqb_subst x y z : SFeqb x y = true -> SFeqb x z = SFeqb y z.
Proof.
  unfold SFeqb.
  destruct x as [sx|sx| |sx mx ex], y as [sy|sy| |sy my ey]; simpl;
    try discriminate; try (destruct sx; discriminate);
    try (destruct sy; discriminate);
    try (destruct sx, sy; discriminate).
  - intros _. destruct z; reflexivity.
  - destruct sx, sy; try discriminate; reflexivity.
  - destruct sx, sy; simpl; try discriminate;
      destruct (Z.compare_spec ex ey); try discriminate; subst;
      change (Pos.compare_cont Eq) with Pos.compare;
      destruct (Pos.compare_spec mx my); simpl; try discriminate; subst;
      reflexivity.
Qed.

Lemma eqb_subst (x y z : float) :
  (x =? y)%float = true -> (x =? z)%float = (y =? z)%float.
Proof. rewrite !FloatAxioms.eqb_spec. apply SFeqb_subst. Qed.

Lemma eqb_sym (x y : float) : (x =? y)%float = (y =? x)%float.
Proof.
  rewrite !FloatAxioms.eqb_spec. unfold SFeqb.
  rewrite (SFcompare_antisym (Prim2SF x) (Prim2SF y)).
  destruct (SFcompare (Prim2SF x) (Prim2SF y)) as [[]|]; reflexivity.
Qed.

End CastFacts.

(** ** The run as a whole *)

Section RunProperties.

Variable log10 : float -> float.
Variable cells : scalar.
Variable apply_on_empty : result (list label).
Variable locate : label -> list Z -> nat.


Lemma each_row_stops {A B : Type} (f : A -> result B) (pre : list A) (r : A)
    (post : list A) (e : exn) :
  (forall x, In x pre -> exists o, f x = OK o) -> f r = Raise e ->
  each_row f (pre ++ r :: post) = Raise e.
Proof.
  induction pre as [|x pre IH]; intros Hpre Hr; simpl.
  - rewrite Hr. reflexivity.
  - destruct (Hpre x (or_introl eq_refl)) as [o Ho]. rewrite Ho. simpl.
    rewrite IH; [reflexivity| |exact Hr].
    intros y Hy. apply Hpre. right. exact Hy.
Qed.

(** X13.  The first model of the cut whose companion search raises stops
    the run with that exception; nothing is written. *)
Theorem first_failing_model_aborts (merit_values_file : string)
    (obs : Obs.row) (rest : list Obs.row) (df_Theo : list Theo.row)
    (nsigma : float) (companion : Companion.spec) (summary : Iso.summary)
    (grid : list Grid.row) (w : world) (pre : list Theo.row) (r : Theo.row)
    (post : list Theo.row) (e : exn) :
  spectro_box log10 obs nsigma df_Theo = pre ++ r :: post ->
  (forall x, In x pre ->
     exists o, enforce_binary_constraints log10 cells x companion summary
                 nsigma grid = OK o) ->
  enforce_binary_constraints log10 cells r companion summary nsigma grid
    = Raise e ->
  spectro_constraint log10 cells apply_on_empty locate merit_values_file
    (obs :: rest) df_Theo nsigma (Some companion) (Some summary) (Some grid) w
  = (Raise e, w).
Proof.
  intros Hcut Hpre Hr.
  unfold spectro_constraint, io_bind, lift. simpl. rewrite Hcut.
  assert (Heach : each_row (fun x => enforce_binary_constraints log10 cells x
                                       companion summary nsigma grid)
                    (pre ++ r :: post) = Raise e)
    by (apply each_row_stops; assumption).
  unfold apply. destruct pre as [|x pre]; simpl app in *; rewrite Heach;
    reflexivity.
Qed.

Lemma filter_all {A : Type} (f : A -> bool) (l : list A) :
  (forall x, In x l -> f x = true) -> filter f l = l.
Proof.
  induction l as [|x l IH]; intros H; simpl; [reflexivity|].
  rewrite (H x (or_introl eq_refl)), IH; [reflexivity|].
  intros y Hy. apply H. right. exact Hy.
Qed.

Lemma filter_nothing {A : Type} (f : A -> bool) (l : list A) :
  (forall x, In x l -> f x = false) -> filter f l = [].
Proof.
  induction l as [|x l IH]; intros H; simpl; [reflexivity|].
  rewrite (H x (or_introl eq_refl)). apply IH.
  intros y Hy. apply H. right. exact Hy.
Qed.

(** ** The drops *)

(** Whether a label designates a row depends on the label of the row
    only. *)
Lemma hit_name (l : label) (r r' : Theo.row) :
  Theo.name r = Theo.name r' -> hit l r = hit l r'.
Proof. intros H. destruct l; simpl; rewrite ?H; reflexivity. Qed.

Lemma is_unique_count (t : list Theo.row) (i : Z) :
  is_unique (map Theo.name t) = true ->
  (List.length (filter (fun r => (Theo.name r =? i)%Z) t) <= 1)%nat.
Proof.
  induction t as [|x t IH]; simpl; intros H; [lia|].
  apply andb_true_iff in H. destruct H as [Hx Ht].
  destruct (Theo.name x =? i) eqn:Hi; [|apply IH, Ht].
  apply Z.eqb_eq in Hi. simpl.
  rewrite filter_nothing; [simpl; lia|].
  intros y Hy. apply not_true_is_false. intros Hyi. apply Z.eqb_eq in Hyi.
  apply negb_true_iff in Hx. apply not_true_iff_false in Hx. apply Hx.
  apply existsb_exists. exists (Theo.name y).
  split; [apply in_map; exact Hy | apply Z.eqb_eq; congruence].
Qed.

Lemma drop_raises (l : label) (t : list Theo.row) (e : exn) :
  drop locate l t = Raise e -> e = KeyError.
Proof.
  unfold drop. destruct (filter (hit l) t) as [|x [|y h]].
  - congruence.
  - discriminate.
  - destruct (is_unique _); discriminate.
Qed.

(** On an index with a repeated label every designated row goes. *)
Lemma drop_repeated (l : label) (t t' : list Theo.row) :
  is_unique (map Theo.name t) = false ->
  drop locate l t = OK t' ->
  t' = filter (fun r => negb (hit l r)) t.
Proof.
  intros Hu. unfold drop. rewrite Hu.
  destruct (filter (hit l) t) as [|x [|y h]]; congruence.
Qed.

(** A label that designates the rows of one label takes them all. *)
Lemma drop_by_name (l : label) (i : Z) (t : list Theo.row) :
  (forall r, In r t -> hit l r = (Theo.name r =? i)) ->
  drop locate l t
  = if existsb (fun r => (Theo.name r =? i)%Z) t
    then OK (filter (fun r => negb (Theo.name r =? i)) t)
    else Raise KeyError.
Proof.
  intros H. unfold drop.
  rewrite (filter_ext_in (hit l) (fun r => (Theo.name r =? i)%Z) t H).
  rewrite (filter_ext_in (fun r => negb (hit l r))
             (fun r => negb (Theo.name r =? i)) t)
    by (intros r Hr; rewrite (H r Hr); reflexivity).
  destruct (filter (fun r => (Theo.name r =? i)%Z) t) as [|x hits] eqn:Hf.
  - replace (existsb _ t) with false; [reflexivity|].
    symmetry. apply not_true_is_false. intros He.
    apply existsb_exists in He. destruct He as [r [Hr Hi]].
    assert (Hin : In r (filter (fun r => (Theo.name r =? i)%Z) t))
      by (apply filter_In; split; assumption).
    rewrite Hf in Hin. destruct Hin.
  - replace (existsb _ t) with true.
    2:{ symmetry. apply existsb_exists. exists x.
        apply (proj1 (filter_In (fun r => (Theo.name r =? i)%Z) x t)).
        rewrite Hf. left. reflexivity. }
    destruct hits as [|y hits]; [reflexivity|].
    destruct (is_unique (map Theo.name t)) eqn:Hu; [|reflexivity].
    pose proof (is_unique_count t i Hu) as Hc. rewrite Hf in Hc.
    simpl in Hc. lia.
Qed.

(** Once no row is designated by a label that is still to be dropped, the
    loop ends in KeyError. *)
Lemma drop_each_missing (labs : list label) (lb : label) :
  to_drop lb = true -> In lb labs ->
  forall t, (forall r, In r t -> hit lb r = false) ->
  drop_each locate labs t = Raise KeyError.
Proof.
  intros Hd. induction labs as [|g labs IH]; intros Hin t Hno;
    [destruct Hin|].
  cbn [drop_each]. destruct Hin as [->|Hin].
  - rewrite Hd. unfold drop. rewrite (filter_nothing _ t Hno). reflexivity.
  - destruct (to_drop g); [|apply IH; assumption].
    destruct (drop locate g t) as [t'|e] eqn:Hg; simpl.
    + apply IH; [assumption|]. intros r Hr. apply Hno.
      exact (sublist_In _ _ (drop_sublist locate g t t' Hg) r Hr).
    + f_equal. exact (drop_raises g t e Hg).
Qed.

(** A label that is dropped twice and designates a repeated label of the
    frame ends the loop in KeyError. *)
Lemma drop_each_twice (pre rest : list label) (lb : label) (i : Z) :
  to_drop lb = true -> In lb rest ->
  (forall r, Theo.name r = i -> hit lb r = true) ->
  (forall g, In g pre -> forall r r',
     hit g r = true -> hit lb r = true -> hit lb r' = true ->
     hit g r' = true) ->
  forall t,
    (2 <= List.length (filter (fun r => (Theo.name r =? i)%Z) t))%nat ->
    drop_each locate (pre ++ lb :: rest) t = Raise KeyError.
Proof.
  intros Hd Hin Hi.
  assert (Hrow : forall t,
            (2 <= List.length (filter (fun r => (Theo.name r =? i)%Z) t))%nat ->
            is_unique (map Theo.name t) = false
            /\ exists r0, In r0 t /\ Theo.name r0 = i).
  { intros t Ht. split.
    - apply not_true_is_false. intros Hu.
      pose proof (is_unique_count t i Hu). lia.
    - destruct (filter (fun r => (Theo.name r =? i)%Z) t) as [|r0 f] eqn:Hf;
        [simpl in Ht; lia|].
      exists r0. rewrite <- Z.eqb_eq.
      apply (proj1 (filter_In (fun r => (Theo.name r =? i)%Z) r0 t)).
      rewrite Hf. left. reflexivity. }
  induction pre as [|g pre IH]; intros Hco t Ht;
    destruct (Hrow t Ht) as [Hu [r0 [Hr0 Hn0]]]; cbn [app drop_each].
  - rewrite Hd. destruct (drop locate lb t) as [t'|e] eqn:Hg; simpl.
    + apply drop_each_missing with lb; [assumption..|].
      rewrite (drop_repeated lb t t' Hu Hg). intros r Hr.
      apply filter_In in Hr. apply negb_true_iff, Hr.
    + f_equal. exact (drop_raises lb t e Hg).
  - assert (Hco' : forall g', In g' pre -> forall r r',
              hit g' r = true -> hit lb r = true -> hit lb r' = true ->
              hit g' r' = true)
      by (intros g' Hg'; apply Hco; right; exact Hg').
    destruct (to_drop g); [|apply IH; assumption].
    destruct (drop locate g t) as [t'|e] eqn:Hg; simpl;
      [|f_equal; exact (drop_raises g t e Hg)].
    rewrite (drop_repeated g t t' Hu Hg).
    destruct (hit g r0) eqn:Hg0.
    + apply drop_each_missing with lb;
        [assumption | apply in_or_app; right; left; reflexivity |].
      intros r Hr. apply filter_In in Hr. destruct Hr as [_ Hr].
      apply negb_true_iff in Hr. apply not_true_is_false. intros Hlb.
      rewrite (Hco g (or_introl eq_refl) r0 r Hg0 (Hi r0 Hn0) Hlb) in Hr.
      discriminate.
    + apply IH; [exact Hco'|].
      rewrite filter_filter.
      rewrite (filter_ext_in _ (fun r => (Theo.name r =? i)%Z) t); [exact Ht|].
      intros r _. destruct (Theo.name r =? i) eqn:Hri;
        [|apply andb_false_r].
      apply Z.eqb_eq in Hri.
      rewrite (hit_name g r r0) by congruence. rewrite Hg0. reflexivity.
Qed.

(** When the drops succeed, no row under a label that was dropped by name
    is left. *)
Lemma drop_each_gone (labs : list label) (lb : label) (i : Z) :
  to_drop lb = true -> In lb labs ->
  forall t out,
    (forall r, In r t -> hit lb r = (Theo.name r =? i)) ->
    drop_each locate labs t = OK out ->
    forall y, In y out -> Theo.name y <> i.
Proof.
  intros Hd. induction labs as [|g labs IH]; intros Hin t out Hhit Hrun y Hy;
    [destruct Hin|].
  cbn [drop_each] in Hrun.
  assert (Hsub : forall t', sublist t' t ->
            forall r, In r t' -> hit lb r = (Theo.name r =? i))
    by (intros t' Hs r Hr; apply Hhit; exact (sublist_In _ _ Hs r Hr)).
  destruct Hin as [->|Hin].
  - rewrite Hd, (drop_by_name lb i t Hhit) in Hrun.
    destruct (existsb _ t); [|discriminate]. simpl in Hrun.
    pose proof (sublist_In _ _ (drop_each_sublist locate _ _ _ Hrun) y Hy)
      as Hy'.
    apply filter_In in Hy'. destruct Hy' as [_ Hy'].
    apply negb_true_iff, Z.eqb_neq in Hy'. exact Hy'.
  - destruct (to_drop g); [|exact (IH Hin t out Hhit Hrun y Hy)].
    destruct (drop locate g t) as [t'|e] eqn:Hg; [|discriminate].
    simpl in Hrun.
    exact (IH Hin t' out (Hsub t' (drop_sublist locate g t t' Hg)) Hrun y Hy).
Qed.

Lemma series_map (results : list (option Z)) :
  series results = map exact_label results
  \/ series results = map float_label results.
Proof. unfold series. destruct (_ || _); [left | right]; reflexivity. Qed.

Section Drops.

Variables (companion : Companion.spec) (summary : Iso.summary)
          (nsigma : float) (grid : list Grid.row).

Let func := fun r => enforce_binary_constraints log10 cells r companion
                       summary nsigma grid.
Let keep := stays log10 cells companion summary nsigma grid.
Let result_of := fun r => if keep r then None else Some (Theo.name r).

(** What the companion search returns, when it returns. *)
Lemma func_label (r : Theo.row) (o : option Z) :
  func r = OK o -> o = result_of r.
Proof.
  subst func keep result_of. unfold stays. cbv beta.
  intros H. rewrite H. destruct o as [i|]; [|reflexivity].
  unfold enforce_binary_constraints in H.
  destruct (get_age cells r grid) as [[a b]|]; [|discriminate].
  destruct (mass_range cells r companion) as [[lo hi]|]; [|discriminate].
  simpl in H. destruct (Iso.get summary (Theo.Zini r)); [|discriminate].
  simpl in H. destruct (snd _); congruence.
Qed.

Lemma each_row_labels (l : list Theo.row) :
  (forall r, In r l -> exists o, func r = OK o) ->
  each_row func l = OK (map result_of l).
Proof.
  induction l as [|x l IH]; intros H; [reflexivity|].
  cbn [each_row map]. destruct (H x (or_introl eq_refl)) as [o Ho].
  rewrite Ho, IH by (intros r Hr; apply H; right; exact Hr). simpl.
  rewrite (func_label x o Ho). reflexivity.
Qed.

Section Labelling.

(** One of the two conversions of [series]. *)
Variable F : option Z -> label.
Hypothesis HF : F = exact_label \/ F = float_label.

Lemma to_drop_label (o : option Z) : to_drop (F o) = is_some o.
Proof.
  destruct HF as [-> | ->], o as [i|]; simpl; try reflexivity.
  apply float_of_int_eqb_refl.
Qed.

Lemma hit_own_label (i : Z) (r : Theo.row) :
  Theo.name r = i -> hit (F (Some i)) r = true.
Proof.
  intros <-. destruct HF as [-> | ->]; simpl.
  - apply Z.eqb_refl.
  - apply float_of_int_eqb_refl.
Qed.

(** Two labels of one Series that designate a common row designate the
    same rows. *)
Lemma hit_coherent (o : option Z) (i : Z) (r r' : Theo.row) :
  hit (F o) r = true -> hit (F (Some i)) r = true ->
  hit (F (Some i)) r' = true -> hit (F o) r' = true.
Proof.
  destruct HF as [-> | ->], o as [j|]; simpl; try discriminate.
  - rewrite !Z.eqb_eq. congruence.
  - intros Hj Hi Hi'.
    rewrite (eqb_sym (Py.float_of_int (Theo.name r')) (Py.float_of_int j)).
    rewrite <- (eqb_subst _ _ (Py.float_of_int (Theo.name r')) Hj).
    rewrite (eqb_subst _ _ (Py.float_of_int (Theo.name r')) Hi).
    rewrite (eqb_sym (Py.float_of_int i)). exact Hi'.
  - intros Hn. exfalso. revert Hn. change (nan)%float with nan.
    rewrite FloatAxioms.eqb_spec. unfold SFeqb.
    change (Prim2SF nan) with S754_nan.
    destruct (Prim2SF _); discriminate.
Qed.

(** Among rows whose labels stay apart as float64, a label of the Series
    designates the rows that carry it. *)
Lemma hit_exact (rows : list Theo.row) (x r : Theo.row) :
  cast_apart rows -> In x rows -> In r rows ->
  hit (F (Some (Theo.name x))) r = (Theo.name r =? Theo.name x).
Proof.
  intros Hc Hx Hr. destruct HF as [-> | ->]; simpl; [reflexivity|].
  destruct (Theo.name r =? Theo.name x) eqn:Hn.
  - apply Z.eqb_eq in Hn. rewrite Hn. apply float_of_int_eqb_refl.
  - apply not_true_is_false. intros Hf. apply Z.eqb_neq in Hn.
    apply Hn. exact (Hc r x Hr Hx Hf).
Qed.

(** The drops of the rows of [l] that do not stay, on a table [t] that
    holds their labels, when no two rows of [l] share a label. *)
Lemma drop_each_unique (rows l : list Theo.row) :
  cast_apart rows -> incl l rows ->
  forall t,
    incl t rows ->
    NoDup (map Theo.name l) ->
    (forall x, In x l -> keep x = false ->
       exists y, In y t /\ Theo.name y = Theo.name x) ->
    drop_each locate (map F (map result_of l)) t
    = OK (filter (fun y =>
            negb (existsb (fun x => negb (keep x)
                                    && (Theo.name x =? Theo.name y)) l)) t).
Proof.
  intros Hc. induction l as [|x l IH]; intros Hl t Ht Hnd Hin.
  - simpl. rewrite filter_all; [reflexivity | intros; reflexivity].
  - cbn [map drop_each]. inversion Hnd as [|? ? Hx Hnd']; subst.
    assert (Hl' : incl l rows) by (intros z Hz; apply Hl; right; exact Hz).
    rewrite to_drop_label. unfold result_of at 1 2.
    destruct (keep x) eqn:Hk; simpl is_some; cbv iota.
    + rewrite IH; [|exact Hl'|exact Ht|exact Hnd'
                   |intros z Hz; apply Hin; right; exact Hz].
      f_equal. apply filter_ext. intros y. simpl. rewrite Hk. reflexivity.
    + rewrite (drop_by_name _ (Theo.name x) t)
        by (intros r Hr; apply hit_exact with rows;
            [exact Hc | apply Hl; left; reflexivity | apply Ht; exact Hr]).
      destruct (Hin x (or_introl eq_refl) Hk) as [y [Hy Hname]].
      replace (existsb (fun r => Theo.name r =? Theo.name x) t) with true.
      2:{ symmetry. apply existsb_exists. exists y. split; [exact Hy|].
          apply Z.eqb_eq. exact Hname. }
      simpl. rewrite IH; [|exact Hl'| |exact Hnd'|].
      * f_equal. rewrite filter_filter. apply filter_ext. intros z.
        simpl. rewrite Hk. simpl. rewrite (Z.eqb_sym (Theo.name x)).
        rewrite negb_orb. reflexivity.
      * intros z Hz. apply Ht. apply filter_In in Hz. apply Hz.
      * intros z Hz Hkz.
        destruct (Hin z (or_intror Hz) Hkz) as [y' [Hy' Hn']].
        exists y'. split; [|exact Hn'].
        apply filter_In. split; [exact Hy'|].
        apply negb_true_iff, Z.eqb_neq. intros Heq.
        apply Hx. rewrite <- Heq, Hn'. apply in_map. exact Hz.
Qed.

(** Two rejected rows under one label end the loop in KeyError. *)
Lemma drop_each_shared (pre : list Theo.row) (r1 : Theo.row)
    (mid : list Theo.row) (r2 : Theo.row) (post : list Theo.row) :
  Theo.name r1 = Theo.name r2 -> keep r1 = false -> keep r2 = false ->
  drop_each locate
    (map F (map result_of (pre ++ r1 :: mid ++ r2 :: post)))
    (pre ++ r1 :: mid ++ r2 :: post)
  = Raise KeyError.
Proof.
  intros Hname H1 H2.
  rewrite !map_app. cbn [map]. rewrite !map_app. cbn [map].
  unfold result_of at 2 4. rewrite H1, H2, <- Hname.
  apply drop_each_twice with (i := Theo.name r1).
  - rewrite to_drop_label. reflexivity.
  - apply in_or_app. right. left. reflexivity.
  - intros r Hr. apply hit_own_label. exact Hr.
  - intros g Hg r r' Hgr Hr Hr'.
    apply in_map_iff in Hg. destruct Hg as [o [<- _]].
    exact (hit_coherent o _ r r' Hgr Hr Hr').
  - rewrite filter_app. cbn [filter]. rewrite Z.eqb_refl.
    rewrite filter_app. cbn [filter]. rewrite <- Hname, Z.eqb_refl.
    rewrite length_app. cbn [List.length]. rewrite length_app.
    cbn [List.length]. lia.
Qed.

End Labelling.

End Drops.

Lemma each_row_In {A B : Type} (f : A -> result B) (l : list A) :
  forall ys, each_row f l = OK ys ->
  forall x, In x l -> exists y, f x = OK y /\ In y ys.
Proof.
  induction l as [|a l IH]; intros ys H x Hx; [destruct Hx|].
  cbn [each_row] in H. destruct (f a) as [b|] eqn:Hb; [|discriminate].
  simpl in H. destruct (each_row f l) as [bs|]; [|discriminate].
  simpl in H. injection H as <-. destruct Hx as [<-|Hx].
  - exists b. split; [exact Hb | left; reflexivity].
  - destruct (IH bs eq_refl x Hx) as [y [Hy Hin]].
    exists y. split; [exact Hy | right; exact Hin].
Qed.

(** X14.  When the rows left by the primary cut carry pairwise different
    index labels that stay apart as float64, and the companion search
    returns for each of them, the run writes exactly the rows of the cut
    for which it returned None, in the order of the grid. *)
Theorem unique_labels_keep_exactly (merit_values_file : string)
    (obs : Obs.row) (rest : list Obs.row) (df_Theo : list Theo.row)
    (nsigma : float) (companion : Companion.spec) (summary : Iso.summary)
    (grid : list Grid.row) (w : world) :
  let cut := spectro_box log10 obs nsigma df_Theo in
  cut <> [] ->
  NoDup (map Theo.name cut) ->
  cast_apart cut ->
  (forall r, In r cut ->
     exists o, enforce_binary_constraints log10 cells r companion summary
                 nsigma grid = OK o) ->
  spectro_constraint log10 cells apply_on_empty locate merit_values_file
    (obs :: rest) df_Theo nsigma (Some companion) (Some summary) (Some grid) w
  = (OK tt,
     {| logged := logged w;
        stored := (nsigma, merit_values_file,
                   node (filter (stays log10 cells companion summary nsigma
                                   grid) cut))
                  :: stored w |}).
Proof.
  intros cut Hne Hnd Hcast Hok.
  unfold spectro_constraint, io_bind, lift, to_hdf. simpl. fold cut.
  unfold apply. destruct cut as [|c0 cut'] eqn:Hcut; [congruence|].
  rewrite <- Hcut in *. clear Hne.
  rewrite (each_row_labels companion summary nsigma grid cut Hok). simpl.
  assert (Hd : drop_each locate
                 (series (map (fun r => if stays log10 cells companion summary
                                             nsigma grid r
                                        then None else Some (Theo.name r)) cut))
                 cut
               = OK (filter (stays log10 cells companion summary nsigma grid)
                       cut)).
  { destruct (series_map (map (fun r => if stays log10 cells companion summary
                                             nsigma grid r
                                        then None else Some (Theo.name r)) cut))
      as [Hs|Hs]; rewrite Hs;
      [ rewrite (drop_each_unique companion summary nsigma grid exact_label
                   (or_introl eq_refl) cut cut Hcast (incl_refl cut) cut
                   (incl_refl cut) Hnd)
          by (intros x Hx _; exists x; split; [exact Hx | reflexivity])
      | rewrite (drop_each_unique companion summary nsigma grid float_label
                   (or_intror eq_refl) cut cut Hcast (incl_refl cut) cut
                   (incl_refl cut) Hnd)
          by (intros x Hx _; exists x; split; [exact Hx | reflexivity]) ];
      f_equal; apply filter_ext_in; intros y Hy;
      destruct (stays log10 cells companion summary nsigma grid y) eqn:Hk.
    all: try (apply negb_true_iff, not_true_is_false; intros H;
              apply existsb_exists in H; destruct H as [x [Hx Hc]];
              apply andb_true_iff in Hc; destruct Hc as [Hkx Hn];
              apply Z.eqb_eq in Hn;
              assert (x = y) by
                (clear - Hnd Hx Hy Hn; induction cut as [|z l IH];
                 [destruct Hx|];
                 inversion Hnd as [|? ? Hz Hnd']; subst;
                 destruct Hx as [->|Hx], Hy as [->|Hy];
                 [ reflexivity
                 | exfalso; apply Hz; rewrite Hn; apply in_map; exact Hy
                 | exfalso; apply Hz; rewrite <- Hn; apply in_map; exact Hx
                 | apply IH; assumption ]);
              subst x; rewrite Hk in Hkx; discriminate).
    all: apply negb_false_iff, existsb_exists; exists y;
         split; [exact Hy|]; rewrite Hk, Z.eqb_refl; reflexivity. }
  rewrite Hd. reflexivity.
Qed.

(** X15.  When two rows left by the primary cut carry the same index
    label and the companion search returns that label for both, the second
    drop finds the label gone: the run raises KeyError and writes
    nothing. *)
Theorem shared_label_dropped_twice (merit_values_file : string)
    (obs : Obs.row) (rest : list Obs.row) (df_Theo : list Theo.row)
    (nsigma : float) (companion : Companion.spec) (summary : Iso.summary)
    (grid : list Grid.row) (w : world)
    (pre : list Theo.row) (r1 : Theo.row) (mid : list Theo.row)
    (r2 : Theo.row) (post : list Theo.row) :
  spectro_box log10 obs nsigma df_Theo = pre ++ r1 :: mid ++ r2 :: post ->
  Theo.name r1 = Theo.name r2 ->
  (forall r, In r (spectro_box log10 obs nsigma df_Theo) ->
     exists o, enforce_binary_constraints log10 cells r companion summary
                 nsigma grid = OK o) ->
  stays log10 cells companion summary nsigma grid r1 = false ->
  stays log10 cells companion summary nsigma grid r2 = false ->
  spectro_constraint log10 cells apply_on_empty locate merit_values_file
    (obs :: rest) df_Theo nsigma (Some companion) (Some summary) (Some grid) w
  = (Raise KeyError, w).
Proof.
  intros Hcut Hname Hok H1 H2.
  unfold spectro_constraint, io_bind, lift, to_hdf. simpl.
  set (cut := spectro_box log10 obs nsigma df_Theo) in *.
  assert (Heach := each_row_labels companion summary nsigma grid cut Hok).
  unfold apply. destruct cut as [|c0 cut'] eqn:Hc.
  { destruct pre; discriminate. }
  rewrite <- Hc in *. rewrite Heach. simpl.
  assert (Hd : drop_each locate
                 (series (map (fun r => if stays log10 cells companion summary
                                             nsigma grid r
                                        then None else Some (Theo.name r)) cut))
                 cut
               = Raise KeyError).
  { rewrite Hcut.
    destruct (series_map (map (fun r => if stays log10 cells companion summary
                                             nsigma grid r
                                        then None else Some (Theo.name r))
                            (pre ++ r1 :: mid ++ r2 :: post)))
      as [Hs|Hs]; rewrite Hs;
      [ apply (drop_each_shared companion summary nsigma grid exact_label
                 (or_introl eq_refl))
      | apply (drop_each_shared companion summary nsigma grid float_label
                 (or_intror eq_refl)) ];
      assumption. }
  rewrite Hd. reflexivity.
Qed.

(** X16.  A drop takes every row that carries the label.  When the labels
    of the cut stay apart as float64 and the run returns, the table it
    writes holds no row under the label of a model that the companion
    search rejected, whatever the search said of that row. *)
Theorem dropped_label_leaves_no_row (merit_values_file : string)
    (obs : Obs.row) (rest : list Obs.row) (df_Theo : list Theo.row)
    (nsigma : float) (companion : Companion.spec) (summary : Iso.summary)
    (grid : list Grid.row) (w w' : world) (x : Theo.row) :
  cast_apart (spectro_box log10 obs nsigma df_Theo) ->
  In x (spectro_box log10 obs nsigma df_Theo) ->
  stays log10 cells companion summary nsigma grid x = false ->
  spectro_constraint log10 cells apply_on_empty locate merit_values_file
    (obs :: rest) df_Theo nsigma (Some companion) (Some summary) (Some grid) w
  = (OK tt, w') ->
  exists out,
    w' = {| logged := logged w;
            stored := (nsigma, merit_values_file, node out) :: stored w |}
    /\ forall y, In y out -> Theo.name y <> Theo.name x.
Proof.
  intros Hcast Hx Hk Hrun.
  unfold spectro_constraint, io_bind, lift, to_hdf in Hrun. simpl in Hrun.
  set (cut := spectro_box log10 obs nsigma df_Theo) in *.
  unfold apply in Hrun. destruct cut as [|c0 cut'] eqn:Hc; [destruct Hx|].
  rewrite <- Hc in *.
  destruct (each_row _ cut) as [results|] eqn:Heach; [|discriminate].
  simpl in Hrun.
  destruct (drop_each locate (series results) cut) as [out|] eqn:Hd;
    [|discriminate].
  simpl in Hrun. injection Hrun as <-. exists out. split; [reflexivity|].
  destruct (each_row_In _ _ _ Heach x Hx) as [o [Ho Hin]].
  rewrite (func_label companion summary nsigma grid x o Ho), Hk in Hin.
  destruct (series_map results) as [Hs|Hs]; rewrite Hs in Hd.
  - apply (drop_each_gone (map exact_label results)
             (exact_label (Some (Theo.name x))) (Theo.name x)
             eq_refl (in_map exact_label _ _ Hin) cut out); [|exact Hd].
    intros r _. reflexivity.
  - apply (drop_each_gone (map float_label results)
             (float_label (Some (Theo.name x))) (Theo.name x)
             (float_of_int_eqb_refl _) (in_map float_label _ _ Hin) cut out);
      [|exact Hd].
    intros r Hr.
    exact (hit_exact float_label (or_intror eq_refl) cut x r Hcast Hx Hr).
Qed.

End RunProperties.

(** The run on the sample tables.  Under a summary without the models'
    metallicity the first model of the cut raises KeyError; with the sample
    summary the rows 0 and 1 are written; with the model at Xc = 0.68 stored
    twice the second drop of its label fails; and with that model stored
    under the label of the model at Xc = 0.70, the latter is lost with
    it. *)
Lemma first_failing_model_aborts_sample :
  spectro_constraint log10_series NpFloat64 (Raise KeyError) Sample.first "grid.hdf"
    [Sample.obs] Sample.df_Theo 2 (Some (Sample.companion true 0.5 0.05))
    (Some Demo.summary_other) (Some Sample.grid) Sample.w0
  = (Raise KeyError, Sample.w0).
Proof.
  apply (first_failing_model_aborts log10_series NpFloat64 (Raise KeyError) Sample.first
           "grid.hdf" Sample.obs [] Sample.df_Theo 2
           (Sample.companion true 0.5 0.05) Demo.summary_other Sample.grid
           Sample.w0 [] Sample.young [Sample.middle; Sample.old] KeyError).
  - vm_compute. reflexivity.
  - intros x [].
  - vm_compute. reflexivity.
Defined.

Lemma unique_labels_keep_exactly_sample :
  spectro_constraint log10_series NpFloat64 (Raise KeyError) Sample.first "grid.hdf"
    [Sample.obs] Sample.df_Theo 2 (Some (Sample.companion true 0.5 0.05))
    (Some Sample.summary) (Some Sample.grid) Sample.w0
  = (OK tt,
     {| logged := [];
        stored := [(2%float, "grid.hdf"%string,
                    Some [Sample.young; Sample.middle])] |}).
Proof.
  pose proof (unique_labels_keep_exactly log10_series NpFloat64
                (Raise KeyError) Sample.first "grid.hdf" Sample.obs [] Sample.df_Theo 2
                (Sample.companion true 0.5 0.05) Sample.summary Sample.grid
                Sample.w0) as H.
  cbv zeta in H. rewrite H.
  - vm_compute. reflexivity.
  - vm_compute. discriminate.
  - vm_compute.
    apply NoDup_cons; [intros [H0|[H0|[]]]; discriminate|].
    apply NoDup_cons; [intros [H0|[]]; discriminate|].
    apply NoDup_cons; [intros []|apply NoDup_nil].
  - intros x y Hx Hy Hxy. vm_compute in Hx, Hy.
    destruct Hx as [<-|[<-|[<-|[]]]], Hy as [<-|[<-|[<-|[]]]];
      try reflexivity; vm_compute in Hxy; discriminate.
  - intros r Hr. vm_compute in Hr.
    destruct Hr as [<-|[<-|[<-|[]]]]; eexists; vm_compute; reflexivity.
Defined.

Lemma shared_label_dropped_twice_sample :
  spectro_constraint log10_series NpFloat64 (Raise KeyError) Sample.first "grid.hdf"
    [Sample.obs] Demo.df_old_twice 2 (Some (Sample.companion true 0.5 0.05))
    (Some Sample.summary) (Some Sample.grid) Sample.w0
  = (Raise KeyError, Sample.w0).
Proof.
  apply (shared_label_dropped_twice log10_series NpFloat64 (Raise KeyError) Sample.first
           "grid.hdf" Sample.obs [] Demo.df_old_twice 2
           (Sample.companion true 0.5 0.05) Sample.summary Sample.grid
           Sample.w0 [Sample.young] Sample.old [] Sample.old []).
  - vm_compute. reflexivity.
  - reflexivity.
  - intros r Hr. vm_compute in Hr.
    destruct Hr as [<-|[<-|[<-|[]]]]; eexists; vm_compute; reflexivity.
  - vm_compute. reflexivity.
  - vm_compute. reflexivity.
Defined.

Lemma dropped_label_leaves_no_row_sample :
  exists out,
    spectro_constraint log10_series NpFloat64 (Raise KeyError) Sample.first "grid.hdf"
      [Sample.obs] Demo.df_same_label 2
      (Some (Sample.companion true 0.5 0.05))
      (Some Sample.summary) (Some Sample.grid) Sample.w0
    = (OK tt, {| logged := [];
                 stored := [(2%float, "grid.hdf"%string, node out)] |})
    /\ stays log10_series NpFloat64 (Sample.companion true 0.5 0.05)
         Sample.summary 2 Sample.grid Sample.young = true
    /\ ~ In Sample.young out.
Proof.
  destruct (dropped_label_leaves_no_row log10_series NpFloat64
              (Raise KeyError) Sample.first "grid.hdf" Sample.obs [] Demo.df_same_label 2
              (Sample.companion true 0.5 0.05) Sample.summary Sample.grid
              Sample.w0
              (snd (spectro_constraint log10_series NpFloat64 (Raise KeyError) Sample.first
                      "grid.hdf" [Sample.obs] Demo.df_same_label 2
                      (Some (Sample.companion true 0.5 0.05))
                      (Some Sample.summary) (Some Sample.grid) Sample.w0))
              (Sample.model 0 0.68 3.780 3.9 0.95))
    as [out [Hw Hout]].
  - intros x y Hx Hy Hxy. vm_compute in Hx, Hy.
    destruct Hx as [<-|[<-|[<-|[]]]], Hy as [<-|[<-|[<-|[]]]];
      try reflexivity; vm_compute in Hxy; discriminate.
  - vm_compute. right. right. left. reflexivity.
  - vm_compute. reflexivity.
  - vm_compute. reflexivity.
  - exists out. split; [|split].
    + rewrite (surjective_pairing (spectro_constraint _ _ _ _ _ _ _ _ _ _ _ _)).
      rewrite Hw. f_equal.
    + vm_compute. reflexivity.
    + intros Hin. exact (Hout Sample.young Hin eq_refl).
Defined.

(** ** Missing values, unknown metallicities and empty windows *)

Section EdgeProperties.

Variable log10 : float -> float.
Variable cells : scalar.

(** Nothing is below or above a bound that is NaN. *)
Lemma nan_bound (x b : float) :
  Prim2SF b = S754_nan -> (x <? b)%float = false /\ gtb x b = false.
Proof.
  intros H. unfold gtb. rewrite !FloatAxioms.ltb_spec, H. unfold SFltb.
  destruct (Prim2SF x); split; reflexivity.
Qed.

Lemma add_nan (a b : float) :
  Prim2SF a = S754_nan \/ Prim2SF b = S754_nan -> Prim2SF (a + b) = S754_nan.
Proof.
  rewrite add_spec. unfold SF64add, SFadd.
  intros [H|H]; rewrite H; [|destruct (Prim2SF a)]; reflexivity.
Qed.

Lemma sub_nan (a b : float) :
  Prim2SF a = S754_nan \/ Prim2SF b = S754_nan -> Prim2SF (a - b) = S754_nan.
Proof.
  rewrite sub_spec. unfold SF64sub, SFsub.
  intros [H|H]; rewrite H; [|destruct (Prim2SF a)]; reflexivity.
Qed.

Lemma mul_nan (a b : float) :
  Prim2SF a = S754_nan \/ Prim2SF b = S754_nan -> Prim2SF (a * b) = S754_nan.
Proof.
  rewrite mul_spec. unfold SF64mul, SFmul.
  intros [H|H]; rewrite H; [|destruct (Prim2SF a)]; reflexivity.
Qed.

(** X17.  A value that is missing never passes the cut.  A model whose
    logTeff, logg or logL is NaN is not kept; when the observed logg or
    logL, one of their errors, or nsigma is NaN, no model is kept. *)
Theorem missing_value_never_survives (obs : Obs.row) (nsigma : float)
    (df_Theo : list Theo.row) :
  (forall r,
     is_nan (Theo.logTeff r) = true \/ is_nan (Theo.logg r) = true
     \/ is_nan (Theo.logL r) = true ->
     ~ In r (spectro_box log10 obs nsigma df_Theo))
  /\ (is_nan (Obs.logg obs) = true \/ is_nan (Obs.logg_err obs) = true
      \/ is_nan (Obs.logL obs) = true \/ is_nan (Obs.logL_err obs) = true
      \/ is_nan nsigma = true ->
      spectro_box log10 obs nsigma df_Theo = []).
Proof.
  rewrite spectro_box_filter. split.
  - intros r Hnan Hin. apply filter_In in Hin. destruct Hin as [_ Hbox].
    unfold in_box, gtb in Hbox. rewrite !andb_true_iff in Hbox.
    destruct Hbox as [[[[[H1 H2] H3] H4] H5] H6].
    destruct Hnan as [H|[H|H]].
    + destruct (nan_ltb _ (log10 (Obs.Teff obs + nsigma * Obs.Teff_err obs)) H)
        as [Hlt _]. congruence.
    + destruct (nan_ltb _ (Obs.logg obs + nsigma * Obs.logg_err obs)%float H)
        as [Hlt _]. congruence.
    + destruct (nan_ltb _ (Obs.logL obs + nsigma * Obs.logL_err obs)%float H)
        as [Hlt _]. congruence.
  - intros Hnan. apply filter_nothing. intros r _. unfold in_box.
    assert (Hb : Prim2SF (Obs.logg obs + nsigma * Obs.logg_err obs) = S754_nan
                 \/ Prim2SF (Obs.logL obs + nsigma * Obs.logL_err obs)
                    = S754_nan).
    { destruct Hnan as [H|[H|[H|[H|H]]]]; apply is_nan_Prim2SF in H.
      - left. apply add_nan. left. exact H.
      - left. apply add_nan. right. apply mul_nan. right. exact H.
      - right. apply add_nan. left. exact H.
      - right. apply add_nan. right. apply mul_nan. right. exact H.
      - left. apply add_nan. right. apply mul_nan. left. exact H. }
    destruct Hb as [Hb|Hb].
    + destruct (nan_bound (Theo.logg r) _ Hb) as [Hlt _]. rewrite Hlt.
      rewrite ?andb_false_r. reflexivity.
    + destruct (nan_bound (Theo.logL r) _ Hb) as [Hlt _]. rewrite Hlt.
      rewrite ?andb_false_r. reflexivity.
Qed.

(** X18.  A model whose metallicity is close to that of no row of the grid
    with ages has no age bracket: [get_age] raises ValueError, at the
    maximum of an empty sequence, and so does the companion search. *)
Theorem unknown_metallicity_raises (model : Theo.row) (df : list Grid.row)
    (spectro_companion : Companion.spec) (summary : Iso.summary)
    (nsigma : float) :
  (forall r, In r df ->
     Np.isclose (Grid.Zini r) (Theo.Zini model) = false) ->
  get_age cells model df = Raise ValueError
  /\ enforce_binary_constraints log10 cells model spectro_companion summary
       nsigma df = Raise ValueError.
Proof.
  intros H.
  assert (Hage : get_age cells model df = Raise ValueError).
  { unfold get_age. rewrite (filter_nothing _ df H). reflexivity. }
  split; [exact Hage|].
  unfold enforce_binary_constraints. rewrite Hage. reflexivity.
Qed.

Lemma get_missing (summary : Iso.summary) (key : float) :
  (forall k c, In (k, c) summary -> (k =? key)%float = false) ->
  Iso.get summary key = Raise KeyError.
Proof.
  induction summary as [|[k c] rest IH]; intros H; [reflexivity|].
  simpl. rewrite (H k c (or_introl eq_refl)). apply IH.
  intros k' c' Hin. apply (H k' c'). right. exact Hin.
Qed.

(** X19.  The grid with ages is searched with [np.isclose] on the
    metallicity, the summary of the isochrone clouds under the model's
    very metallicity.  A model with an age bracket and a mass range whose
    metallicity equals no key of the summary raises KeyError, however close
    a key is. *)
Theorem summary_key_is_exact (model : Theo.row)
    (spectro_companion : Companion.spec) (summary : Iso.summary)
    (nsigma : float) (grid : list Grid.row) (ages : Z * Z)
    (masses : float * float) :
  get_age cells model grid = OK ages ->
  mass_range cells model spectro_companion = OK masses ->
  (forall k c, In (k, c) summary -> (k =? Theo.Zini model)%float = false) ->
  enforce_binary_constraints log10 cells model spectro_companion summary
    nsigma grid = Raise KeyError.
Proof.
  intros Hage Hmass Hkeys. unfold enforce_binary_constraints.
  rewrite Hage, Hmass. destruct ages, masses. simpl.
  rewrite (get_missing _ _ Hkeys). reflexivity.
Qed.

(** X20.  The age bracket of a model depends on the rows of the grid at
    the model's metallicity only: the rows at other metallicities can be
    left out. *)
Theorem get_age_own_metallicity (model : Theo.row) (df : list Grid.row) :
  get_age cells model df
  = get_age cells model
      (filter (fun r => Np.isclose (Grid.Zini r) (Theo.Zini model)) df).
Proof.
  assert (Hm : forall xc,
            age_at df model xc
            = age_at (filter (fun r => Np.isclose (Grid.Zini r)
                                         (Theo.Zini model)) df) model xc).
  { intros xc. unfold age_at, matching. rewrite filter_filter.
    do 2 f_equal. apply filter_ext. intros r. unfold on_track.
    destruct (Np.isclose (Grid.Zini r) (Theo.Zini model)); reflexivity. }
  unfold get_age. rewrite filter_idempotent, <- !Hm. reflexivity.
Qed.

(** X21.  A model whose age bracket is empty is dropped: when the upper
    age is not above the lower one, as for two neighbouring steps of the
    same age in years, no row of any track lies strictly between them and
    the companion search returns the label of the model. *)
Theorem empty_age_window_drops (model : Theo.row)
    (spectro_companion : Companion.spec) (summary : Iso.summary)
    (nsigma : float) (grid : list Grid.row) (min_age max_age : Z)
    (masses : float * float) (cloud : Iso.cloud) :
  get_age cells model grid = OK (min_age, max_age) ->
  (Py.float_of_int max_age <=? Py.float_of_int min_age)%float = true ->
  mass_range cells model spectro_companion = OK masses ->
  Iso.get summary (Theo.Zini model) = OK cloud ->
  enforce_binary_constraints log10 cells model spectro_companion summary
    nsigma grid = OK (Some (Theo.name model)).
Proof.
  intros Hage Hle Hmass Hget. unfold enforce_binary_constraints.
  rewrite Hage, Hmass. destruct masses as [M2_min M2_max]. simpl.
  rewrite Hget. simpl. rewrite scan_none; [reflexivity|].
  intros [key df] _. unfold compatible. simpl.
  replace (in_age_window min_age max_age df) with (@nil Iso.row).
  { rewrite companion_box_nil. simpl. apply andb_false_r. }
  symmetry. apply filter_nothing. intros r _.
  destruct (Iso.star_age r <? Py.float_of_int max_age)%float eqn:Hlt;
    [|reflexivity].
  destruct (gtb (Iso.star_age r) (Py.float_of_int min_age)) eqn:Hgt;
    [|reflexivity].
  unfold gtb in Hgt. rewrite (nothing_between _ _ _ Hgt Hlt) in Hle.
  discriminate.
Qed.

End EdgeProperties.

(** On the sample tables: a model without logg is cut whatever the box; a
    grid at the metallicity 0.02 only gives the sample models no bracket;
    the model whose metallicity is close to the key of the summary is
    found in the grid and not in the summary; the rows at the metallicity
    0.02 change no bracket; and on the grid whose last two steps have the
    same age the model at Xc = 0.68 is dropped. *)
Lemma missing_value_never_survives_sample :
  ~ In Demo.no_logg
      (spectro_box log10_series Sample.obs 2 (Demo.no_logg :: Sample.df_Theo)).
Proof.
  apply (proj1 (missing_value_never_survives log10_series Sample.obs 2
                  (Demo.no_logg :: Sample.df_Theo))).
  right. left. reflexivity.
Defined.

Lemma unknown_metallicity_raises_sample :
  get_age NpFloat64 Sample.young [Demo.step_z 0.02 0.71 10] = Raise ValueError
  /\ enforce_binary_constraints log10_series NpFloat64 Sample.young
       (Sample.companion true 0.5 0.05) Sample.summary 2
       [Demo.step_z 0.02 0.71 10]
     = Raise ValueError.
Proof.
  apply (unknown_metallicity_raises log10_series NpFloat64 Sample.young
           [Demo.step_z 0.02 0.71 10] (Sample.companion true 0.5 0.05)
           Sample.summary 2).
  intros r [<-|[]]. vm_compute. reflexivity.
Defined.

Lemma summary_key_is_exact_sample :
  Np.isclose 0.014 (Theo.Zini Demo.near_z) = true
  /\ get_age NpFloat64 Demo.near_z Sample.grid = OK (0, 2000)
  /\ enforce_binary_constraints log10_series NpFloat64 Demo.near_z
       (Sample.companion true 0.5 0.05) Sample.summary 2 Sample.grid
     = Raise KeyError.
Proof.
  split; [vm_compute; reflexivity|].
  split; [vm_compute; reflexivity|].
  apply (summary_key_is_exact log10_series NpFloat64 Demo.near_z
           (Sample.companion true 0.5 0.05) Sample.summary 2 Sample.grid
           (0, 2000) (2.2%float, 2.8%float)).
  - vm_compute. reflexivity.
  - vm_compute. reflexivity.
  - intros k c [H|[]]. injection H as <- _. vm_compute. reflexivity.
Defined.

Lemma get_age_own_metallicity_sample :
  get_age NpFloat64 Sample.middle Demo.grid_two_z
  = get_age NpFloat64 Sample.middle Sample.grid.
Proof.
  rewrite (get_age_own_metallicity NpFloat64 Sample.middle Demo.grid_two_z).
  reflexivity.
Defined.

Lemma empty_age_window_drops_sample :
  enforce_binary_constraints log10_series NpFloat64 Sample.old
    (Sample.companion true 0.5 0.05) Sample.summary 2 Demo.grid_flat
  = OK (Some 4).
Proof.
  apply (empty_age_window_drops log10_series NpFloat64 Sample.old
           (Sample.companion true 0.5 0.05) Sample.summary 2 Demo.grid_flat
           3500 3500 (2.2%float, 2.8%float) Sample.cloud).
  - vm_compute. reflexivity.
  - vm_compute. reflexivity.
  - vm_compute. reflexivity.
  - vm_compute. reflexivity.
Defined.

(** ** More isochrones never cost a model *)

Section Monotone.

Variable log10 : float -> float.
Variable cells : scalar.

Lemma filter_mono {A : Type} (f : A -> bool) (l l' : list A) :
  incl l l' -> incl (filter f l) (filter f l').
Proof.
  intros H x Hx. apply filter_In in Hx. apply filter_In.
  split; [apply H|]; apply Hx.
Qed.

Lemma companion_box_mono (spectro_companion : Companion.spec)
    (nsigma : float) (df df' : Iso.track) :
  incl df df' ->
  incl (companion_box log10 spectro_companion nsigma df)
       (companion_box log10 spectro_companion nsigma df').
Proof.
  intros H. unfold companion_box.
  destruct (Companion.Teff spectro_companion),
           (Companion.logg spectro_companion),
           (Companion.logL spectro_companion);
    repeat apply filter_mono; exact H.
Qed.

Lemma compatible_mono (spectro_companion : Companion.spec) (nsigma : float)
    (min_age max_age : Z) (M2_min M2_max key : float) (df df' : Iso.track) :
  incl df df' ->
  compatible log10 spectro_companion nsigma min_age max_age M2_min M2_max
    (key, df) = true ->
  compatible log10 spectro_companion nsigma min_age max_age M2_min M2_max
    (key, df') = true.
Proof.
  intros H. rewrite !compatible_iff. simpl. intros [Hm [r Hr]].
  split; [exact Hm|]. exists r.
  apply (companion_box_mono spectro_companion nsigma
           (in_age_window min_age max_age df)
           (in_age_window min_age max_age df')); [|exact Hr].
  unfold in_age_window. apply filter_mono. exact H.
Qed.

(** X22.  More isochrones never cost a model.  When the cloud under the
    model's metallicity is replaced by one that holds, under the same
    masses, every track with at least its rows, and possibly more tracks,
    a model that stayed still stays. *)
Theorem more_isochrones_never_drop (model : Theo.row)
    (spectro_companion : Companion.spec) (nsigma : float)
    (grid : list Grid.row) (s1 s2 : Iso.summary) (c1 c2 : Iso.cloud) :
  Iso.get s1 (Theo.Zini model) = OK c1 ->
  Iso.get s2 (Theo.Zini model) = OK c2 ->
  (forall key df, In (key, df) c1 ->
     exists df', In (key, df') c2 /\ incl df df') ->
  enforce_binary_constraints log10 cells model spectro_companion s1 nsigma grid
    = OK None ->
  enforce_binary_constraints log10 cells model spectro_companion s2 nsigma grid
    = OK None.
Proof.
  intros H1 H2 Hext. unfold enforce_binary_constraints.
  destruct (get_age cells model grid) as [[min_age max_age]|]; [|trivial].
  destruct (mass_range cells model spectro_companion) as [[M2_min M2_max]|];
    [|trivial].
  simpl. rewrite H1, H2. simpl. rewrite !scan_found.
  destruct (existsb _ c1) eqn:Hc1; [|discriminate]. intros _.
  apply existsb_exists in Hc1. destruct Hc1 as [[key df] [Hin Hok]].
  destruct (Hext key df Hin) as [df' [Hin' Hincl]].
  replace (existsb _ c2) with true; [reflexivity|].
  symmetry. apply existsb_exists. exists (key, df').
  split; [exact Hin'|].
  exact (compatible_mono _ _ _ _ _ _ _ _ _ Hincl Hok).
Qed.

End Monotone.

(** The model at Xc = 0.69 stays with the track of 2.5 Msun alone, cut
    after its second row, and so with the whole sample cloud. *)
Lemma more_isochrones_never_drop_sample :
  enforce_binary_constraints log10_series NpFloat64 Sample.middle
    (Sample.companion true 0.5 0.05) Sample.summary 2 Sample.grid
  = OK None.
Proof.
  apply (more_isochrones_never_drop log10_series NpFloat64 Sample.middle
           (Sample.companion true 0.5 0.05) 2 Sample.grid
           [(0.014%float,
             [(2.5%float, [Sample.point 900 4.10 4.35 2.2;
                           Sample.point 2000 4.09 4.3 2.25])])]
           Sample.summary
           [(2.5%float, [Sample.point 900 4.10 4.35 2.2;
                         Sample.point 2000 4.09 4.3 2.25])]
           Sample.cloud).
  - vm_compute. reflexivity.
  - vm_compute. reflexivity.
  - intros key df [H|[]]. injection H as <- <-.
    exists Sample.track_b. split; [right; left; reflexivity|].
    intros r [<-|[<-|[]]]; [left | right; left]; reflexivity.
  - vm_compute. reflexivity.
Defined.
